(** * Tank Mayhem: physics-driven entity simulation

    A shallow embedding of the simulation core of the game (terrain
    generation, the tank's weapon and health state, projectiles, the
    collision classifier and the entity registry), with the properties
    its specification states about them.

    Numbers.  The program computes on JavaScript numbers, which are
    binary64.  Where what is stated depends on the rounding of each
    operation or on NaN (the reload timer, the age of a projectile, the
    index a height query computes) the code is modelled on Rocq's
    primitive binary64 numbers ([Tank64], [Projectile64], [Terrain64]).
    The range of the health depends on NaN and the infinities and not on
    rounding; it is modelled over the rationals extended with them
    ([Number], [TankHealth]).  Elsewhere heights, times and coordinates
    are exact rationals [Q], and what is stated there is about ordering,
    clamping and counting.  Counters that only ever hold integers
    (ammunition, grid sizes) are [Z] or [nat].  A value that JavaScript
    reads as [undefined] (a missing property, an index out of range) is
    [None]. *)

From Stdlib Require Import QArith Qround ZArith Lia Lqa List Bool String.
From Stdlib Require Import PrimFloat FloatOps SpecFloat FloatAxioms.
From stdpp Require Import base option gmap strings.
Import ListNotations.

Local Open Scope Q_scope.

(** ** JavaScript helpers *)

Module Js.

(** [Math.max] and [Math.min] on numbers. *)
Definition max (a b : Q) : Q := if Qle_bool a b then b else a.
Definition min (a b : Q) : Q := if Qle_bool a b then a else b.

(** [a < b] and [a >= b] as the program's tests. *)
Definition lt (a b : Q) : bool := negb (Qle_bool b a).
Definition ge (a b : Q) : bool := Qle_bool b a.

(** [Array.prototype.indexOf] followed by [splice(idx, 1)]: the first
    occurrence is removed, an absent element leaves the array as it is. *)
Fixpoint removeFirst (x : nat) (l : list nat) : list nat :=
  match l with
  | [] => []
  | y :: l' => if Nat.eqb x y then l' else y :: removeFirst x l'
  end.

End Js.

(** ** Binary64 numbers

    JavaScript numbers are the binary64 format of IEEE 754, and so is
    Rocq's primitive [float]: [+], [-], [*] and [/] round to nearest, ties
    to even, and a comparison with NaN is false. *)

Module Double.

(** The exact value of a finite double, as a rational (0 for NaN and
    the two infinities, which have none). *)
Definition value (f : float) : Q :=
  match Prim2SF f with
  | S754_finite s m e => inject_Z (if s then Z.neg m else Z.pos m) * 2 ^ e
  | _ => 0
  end.

(** Neither NaN nor an infinity. *)
Definition isFinite (f : float) : bool :=
  match Prim2SF f with
  | S754_zero _ | S754_finite _ _ _ => true
  | _ => false
  end.

Definition isNaN (f : float) : bool :=
  match Prim2SF f with
  | S754_nan => true
  | _ => false
  end.

(** The double nearest a natural number (the number itself below
    2^53). *)
Definition ofNat (n : nat) : float :=
  SF2Prim (binary_normalize prec emax (Z.of_nat n) 0 false).

(** [a >= b] as the program's test: false when either side is NaN. *)
Definition ge (a b : float) : bool := (b <=? a)%float.

(** What [Math.floor] returns: an integer, or its argument when that is
    NaN or an infinity. *)
Inductive integer : Type :=
| NaN
| NegInfinity
| Infinity
| Int (k : Z).

(** [Math.floor] *)
Definition floor (f : float) : integer :=
  match Prim2SF f with
  | S754_nan => NaN
  | S754_infinity s => if s then NegInfinity else Infinity
  | S754_zero _ => Int 0
  | S754_finite s m e => Int (Z.shiftl (if s then Z.neg m else Z.pos m) e)
  end.

(** The exact sum of the values of a list of doubles. *)
Definition sum (l : list float) : Q :=
  fold_right (fun d acc => value d + acc) 0 l.

End Double.

(** ** Vectors ([THREE.Vector3], cannon's [Vec3]) *)

Record Vec3 : Type := mkVec3 { vx : Q; vy : Q; vz : Q }.

(** ** Rigid bodies (the part of cannon's [Body] the program uses) *)

Module Cannon.

(** The payload the program stores in [body.userData].  Every property
    is optional: the classifier reads each one with [?.]. *)
Record UserData : Type := mkUserData {
  ud_type : option string;
  ud_id : option string;
  ud_ownerId : option string;
  ud_damage : option Q
}.

Inductive Shape : Type :=
| Box (halfExtents : Vec3)
| Cylinder (radiusTop radiusBottom height : Q) (numSegments : nat)
| Sphere (radius : Q)
| Heightfield (data : list (list (option Q))) (elementSize : Q).

Record Body : Type := mkBody {
  mass : Q;
  position : Vec3;
  velocity : Vec3;
  euler : Vec3;
  shapes : list (Shape * Vec3);
  userData : option UserData
}.

Definition zero : Vec3 := mkVec3 0 0 0.

End Cannon.

(** ** Tank (weapon and health state) *)

Module Tank.

(** The fields of [class Tank] that carry the weapon and health state.
    The visual node and the rigid body of the tank are held by the
    rendering and physics libraries; the methods below that touch them
    ([update]'s transform copy and anti-sink force) read and write only
    those objects and the [isGrounded] flag, never the fields here. *)
Record t : Type := mk {
  health : Q;
  maxHealth : Q;
  ammo : Z;
  maxAmmo : Z;
  reloadTime : Q;
  isReloading : bool;
  reloadTimer : Q;
  damageDealt : Q
}.

(** The field initialisers of the class. *)
Definition new : t :=
  {| health := 100; maxHealth := 100;
     ammo := 5; maxAmmo := 5; reloadTime := 2;
     isReloading := false; reloadTimer := 0; damageDealt := 0 |}.

Definition set_ammo (a : Z) (s : t) : t :=
  {| health := health s; maxHealth := maxHealth s;
     ammo := a; maxAmmo := maxAmmo s; reloadTime := reloadTime s;
     isReloading := isReloading s; reloadTimer := reloadTimer s;
     damageDealt := damageDealt s |}.

Definition set_health (h : Q) (s : t) : t :=
  {| health := h; maxHealth := maxHealth s;
     ammo := ammo s; maxAmmo := maxAmmo s; reloadTime := reloadTime s;
     isReloading := isReloading s; reloadTimer := reloadTimer s;
     damageDealt := damageDealt s |}.

Definition set_reload (r : bool) (timer : Q) (s : t) : t :=
  {| health := health s; maxHealth := maxHealth s;
     ammo := ammo s; maxAmmo := maxAmmo s; reloadTime := reloadTime s;
     isReloading := r; reloadTimer := timer;
     damageDealt := damageDealt s |}.

(** [private createPhysicsBody()]: the body and the role tag put on
    it; [id] is the entity id given to the [Entity] constructor. *)
Definition createPhysicsBody (id : string) (position rotation : Vec3) :
    Cannon.Body :=
  {| Cannon.mass := 1500;
     Cannon.position := position;
     Cannon.velocity := Cannon.zero;
     Cannon.euler := rotation;
     Cannon.shapes :=
       [(Cannon.Box (mkVec3 (15 # 10) (5 # 10) 2), mkVec3 0 0 0);
        (Cannon.Box (mkVec3 1 (4 # 10) (15 # 10)), mkVec3 0 1 0)];
     Cannon.userData :=
       Some {| Cannon.ud_type := Some "tank"%string;
               Cannon.ud_id := Some id;
               Cannon.ud_ownerId := None;
               Cannon.ud_damage := None |} |}.

(** [private startReload()] *)
Definition startReload (s : t) : t := set_reload true 0 s.

(** [public fire(): boolean] *)
Definition fire (s : t) : bool * t :=
  if (ammo s <=? 0)%Z || isReloading s then (false, s)
  else
    let s1 := set_ammo (ammo s - 1)%Z s in
    let s2 := if (ammo s1 <=? 0)%Z then startReload s1 else s1 in
    (true, s2).

(** [public update(delta)], the reload timer part, with the timer as an
    exact sum; [Tank64.update] has it as the code rounds it. *)
Definition update (delta : Q) (s : t) : t :=
  if isReloading s then
    let s1 := set_reload (isReloading s) (reloadTimer s + delta) s in
    if Js.ge (reloadTimer s1) (reloadTime s1)
    then set_ammo (maxAmmo s1) (set_reload false 0 s1)
    else s1
  else s.

(** [controlWithInput], the reload input:
    [if (input.reload && !this.isReloading && this.ammo < this.maxAmmo)]. *)
Definition reloadInput (reload : bool) (s : t) : t :=
  if reload && negb (isReloading s) && (ammo s <? maxAmmo s)%Z
  then startReload s else s.

(** [public damage(amount)], [heal], [setHealth] and [isDead] on exact
    numbers; [TankHealth] has them with NaN and the infinities. *)
Definition damage (amount : Q) (s : t) : t :=
  set_health (Js.max 0 (health s - amount)) s.

(** [public heal(amount)] *)
Definition heal (amount : Q) (s : t) : t :=
  set_health (Js.min (maxHealth s) (health s + amount)) s.

(** [public setHealth(health)] *)
Definition setHealth (h : Q) (s : t) : t :=
  set_health (Js.max 0 (Js.min (maxHealth s) h)) s.

(** [public isDead(): boolean] *)
Definition isDead (s : t) : bool := Qle_bool (health s) 0.

(** [public reset(position?)], the state part. *)
Definition reset (s : t) : t :=
  set_reload false 0 (set_ammo (maxAmmo s) (set_health (maxHealth s) s)).

(** Calls a client can make on a tank. *)
Inductive op : Type :=
| Fire
| Update (delta : Q)
| ReloadInput (reload : bool)
| Damage (amount : Q)
| Heal (amount : Q)
| SetHealth (h : Q)
| Reset.

Definition step (o : op) (s : t) : t :=
  match o with
  | Fire => snd (fire s)
  | Update d => update d s
  | ReloadInput r => reloadInput r s
  | Damage a => damage a s
  | Heal a => heal a s
  | SetHealth h => setHealth h s
  | Reset => reset s
  end.

Definition run (ops : list op) (s : t) : t :=
  fold_left (fun acc o => step o acc) ops s.

(** The state invariant of the weapon. *)
Definition ammoInRange (s : t) : Prop :=
  (0 <= ammo s)%Z /\ (ammo s <= maxAmmo s)%Z.

(** [n] consecutive calls of [fire()]: the returned values, in call
    order, and the final state. *)
Fixpoint fires (n : nat) (s : t) : list bool * t :=
  match n with
  | O => ([], s)
  | S n' =>
      let '(b, s1) := fire s in
      let '(bs, s2) := fires n' s1 in
      (b :: bs, s2)
  end.

End Tank.

(** ** Tank: the reload timer in binary64

    The weapon fields of [class Tank] again, with [reloadTime] and
    [reloadTimer] as doubles and [+=] and [>=] as the processor computes
    them. *)

Module Tank64.

Record t : Type := mk {
  ammo : Z;
  maxAmmo : Z;
  reloadTime : float;
  isReloading : bool;
  reloadTimer : float
}.

(** The field initialisers of the class. *)
Definition new : t :=
  {| ammo := 5; maxAmmo := 5; reloadTime := 2;
     isReloading := false; reloadTimer := 0 |}.

(** [private startReload()] *)
Definition startReload (s : t) : t :=
  {| ammo := ammo s; maxAmmo := maxAmmo s; reloadTime := reloadTime s;
     isReloading := true; reloadTimer := 0 |}.

(** [public fire(): boolean] *)
Definition fire (s : t) : bool * t :=
  if (ammo s <=? 0)%Z || isReloading s then (false, s)
  else
    let s1 :=
      {| ammo := (ammo s - 1)%Z; maxAmmo := maxAmmo s;
         reloadTime := reloadTime s; isReloading := isReloading s;
         reloadTimer := reloadTimer s |} in
    let s2 := if (ammo s1 <=? 0)%Z then startReload s1 else s1 in
    (true, s2).

(** [public update(delta)], the reload timer part:
    [this.reloadTimer += delta; if (this.reloadTimer >= this.reloadTime)]. *)
Definition update (delta : float) (s : t) : t :=
  if isReloading s then
    let timer := (reloadTimer s + delta)%float in
    if Double.ge timer (reloadTime s)
    then {| ammo := maxAmmo s; maxAmmo := maxAmmo s;
            reloadTime := reloadTime s;
            isReloading := false; reloadTimer := 0 |}
    else {| ammo := ammo s; maxAmmo := maxAmmo s;
            reloadTime := reloadTime s;
            isReloading := isReloading s; reloadTimer := timer |}
  else s.

(** [n] consecutive calls of [fire()]. *)
Fixpoint fires (n : nat) (s : t) : list bool * t :=
  match n with
  | O => ([], s)
  | S n' =>
      let '(b, s1) := fire s in
      let '(bs, s2) := fires n' s1 in
      (b :: bs, s2)
  end.

(** Successive [update] calls with the given frame deltas. *)
Definition updates (deltas : list float) (s : t) : t :=
  fold_left (fun acc d => update d acc) deltas s.

(** The timer a reload started at 0 has reached after the given deltas,
    as [+=] accumulates it: added in call order, each sum rounded. *)
Definition timerAfter (deltas : list float) : float :=
  fold_left PrimFloat.add deltas 0%float.

End Tank64.

(** ** Numbers with NaN and the infinities, rounding apart

    The range of the health depends on what [Math.max], [Math.min] and
    [<=] do with NaN and the infinities, and not on rounding (rounding is
    monotone and leaves 0 and [maxHealth] as they are): the health is
    modelled over the rationals extended with these three values. *)

Module Number.

Inductive t : Type :=
| NaN
| NegInfinity
| Infinity
| Finite (q : Q).

Definition isNaN (a : t) : bool :=
  match a with
  | NaN => true
  | _ => false
  end.

Definition opp (a : t) : t :=
  match a with
  | NaN => NaN
  | NegInfinity => Infinity
  | Infinity => NegInfinity
  | Finite q => Finite (- q)
  end.

(** [a + b]: NaN for [Infinity + -Infinity]. *)
Definition add (a b : t) : t :=
  match a, b with
  | NaN, _ | _, NaN => NaN
  | Infinity, NegInfinity | NegInfinity, Infinity => NaN
  | Infinity, _ | _, Infinity => Infinity
  | NegInfinity, _ | _, NegInfinity => NegInfinity
  | Finite x, Finite y => Finite (x + y)
  end.

(** [a - b] *)
Definition sub (a b : t) : t := add a (opp b).

(** [a <= b]: false when either side is NaN. *)
Definition le (a b : t) : bool :=
  match a, b with
  | NaN, _ | _, NaN => false
  | NegInfinity, _ => true
  | _, Infinity => true
  | Infinity, _ => false
  | _, NegInfinity => false
  | Finite x, Finite y => Qle_bool x y
  end.

(** [a == b] on numbers: false when either side is NaN. *)
Definition eq (a b : t) : bool :=
  match a, b with
  | NegInfinity, NegInfinity => true
  | Infinity, Infinity => true
  | Finite x, Finite y => Qeq_bool x y
  | _, _ => false
  end.

(** [Math.max] and [Math.min]: NaN when either argument is NaN. *)
Definition max (a b : t) : t :=
  match a, b with
  | NaN, _ | _, NaN => NaN
  | _, _ => if le a b then b else a
  end.

Definition min (a b : t) : t :=
  match a, b with
  | NaN, _ | _, NaN => NaN
  | _, _ => if le a b then a else b
  end.

End Number.

(** ** Tank: the health, with NaN and the infinities *)

Module TankHealth.

(** The health fields of [class Tank]. *)
Record t : Type := mk {
  health : Number.t;
  maxHealth : Number.t
}.

(** The field initialisers of the class. *)
Definition new : t :=
  {| health := Number.Finite 100; maxHealth := Number.Finite 100 |}.

(** [public damage(amount)] *)
Definition damage (amount : Number.t) (s : t) : t :=
  {| health := Number.max (Number.Finite 0) (Number.sub (health s) amount);
     maxHealth := maxHealth s |}.

(** [public heal(amount)] *)
Definition heal (amount : Number.t) (s : t) : t :=
  {| health := Number.min (maxHealth s) (Number.add (health s) amount);
     maxHealth := maxHealth s |}.

(** [public setHealth(health)] *)
Definition setHealth (h : Number.t) (s : t) : t :=
  {| health := Number.max (Number.Finite 0) (Number.min (maxHealth s) h);
     maxHealth := maxHealth s |}.

(** [public isDead(): boolean] *)
Definition isDead (s : t) : bool := Number.le (health s) (Number.Finite 0).

(** The calls that set the health. *)
Inductive op : Type :=
| Damage (amount : Number.t)
| Heal (amount : Number.t)
| SetHealth (h : Number.t).

Definition step (o : op) (s : t) : t :=
  match o with
  | Damage a => damage a s
  | Heal a => heal a s
  | SetHealth h => setHealth h s
  end.

Definition run (ops : list op) (s : t) : t :=
  fold_left (fun acc o => step o acc) ops s.

(** A damage or heal amount with [amount >= 0] (so not NaN); a
    [setHealth] argument that is not NaN. *)
Definition argumentOk (o : op) : Prop :=
  match o with
  | Damage a | Heal a => Number.le (Number.Finite 0) a = true
  | SetHealth h => Number.isNaN h = false
  end.

(** The calls that take an amount: [damage] and [heal]. *)
Definition isAmountOp (o : op) : bool :=
  match o with
  | Damage _ | Heal _ => true
  | SetHealth _ => false
  end.

(** [0 <= health && health <= maxHealth] *)
Definition inRange (s : t) : Prop :=
  Number.le (Number.Finite 0) (health s) = true /\
  Number.le (health s) (maxHealth s) = true.

(** [maxHealth] is a finite number (the class sets it to 100 and never
    assigns it again). *)
Definition finiteMax (s : t) : Prop :=
  exists m, maxHealth s = Number.Finite m.

End TankHealth.

(** ** Projectile *)

Module Projectile.

Record t : Type := mk {
  id : string;
  position : Vec3;
  direction : Vec3;
  speed : Q;
  damage : Q;
  ownerId : string;
  lifeTime : Q;
  age : Q;
  radius : Q
}.

(** The constructor; [direction] is the already normalised direction
    ([options.direction.normalize()] is done by the vector library). *)
Definition new (id : string) (position direction : Vec3) (speed damage : Q)
    (ownerId : string) : t :=
  {| id := id; position := position; direction := direction;
     speed := speed; damage := damage; ownerId := ownerId;
     lifeTime := 5; age := 0; radius := 2 # 10 |}.

(** [private createPhysicsBody()] *)
Definition createPhysicsBody (p : t) : Cannon.Body :=
  {| Cannon.mass := 5;
     Cannon.position := position p;
     Cannon.velocity :=
       mkVec3 (vx (direction p) * speed p)
              (vy (direction p) * speed p)
              (vz (direction p) * speed p);
     Cannon.euler := Cannon.zero;
     Cannon.shapes := [(Cannon.Sphere (radius p), Cannon.zero)];
     Cannon.userData :=
       Some {| Cannon.ud_type := Some "projectile"%string;
               Cannon.ud_id := Some (id p);
               Cannon.ud_ownerId := Some (ownerId p);
               Cannon.ud_damage := Some (damage p) |} |}.

(** [public update(delta)]: the age counter, as an exact sum
    ([Projectile64.update] has it as the code rounds it).  The rest of
    the method copies the body's transform to the visual node. *)
Definition update (delta : Q) (p : t) : t :=
  {| id := id p; position := position p; direction := direction p;
     speed := speed p; damage := damage p; ownerId := ownerId p;
     lifeTime := lifeTime p; age := age p + delta; radius := radius p |}.

(** [public isExpired(): boolean] *)
Definition isExpired (p : t) : bool := Js.ge (age p) (lifeTime p).

Definition updates (deltas : list Q) (p : t) : t :=
  fold_left (fun acc d => update d acc) deltas p.

End Projectile.

(** ** Projectile: the age counter in binary64 *)

Module Projectile64.

(** The two fields of [class Projectile] that decide its expiry. *)
Record t : Type := mk {
  lifeTime : float;
  age : float
}.

(** The field initialisers: [lifeTime = 5], [age = 0]. *)
Definition new : t := {| lifeTime := 5; age := 0 |}.

(** [public update(delta)]: [this.age += delta]. *)
Definition update (delta : float) (p : t) : t :=
  {| lifeTime := lifeTime p; age := (age p + delta)%float |}.

(** [public isExpired(): boolean]: [this.age >= this.lifeTime]. *)
Definition isExpired (p : t) : bool := Double.ge (age p) (lifeTime p).

Definition updates (deltas : list float) (p : t) : t :=
  fold_left (fun acc d => update d acc) deltas p.

(** The age a fresh projectile has accumulated after the given deltas,
    as [+=] accumulates it: added in call order, each sum rounded. *)
Definition accumulated (deltas : list float) : float :=
  fold_left PrimFloat.add deltas 0%float.

End Projectile64.

(** ** Terrain *)

Module Terrain.

Record t : Type := mk {
  size : Q;
  resolution : nat;
  maxHeight : Q;
  heightData : list (list Q)
}.

(** The constructor: [heightData] starts as [[]]. *)
Definition new (size : Q) (resolution : nat) (maxHeight : Q) : t :=
  {| size := size; resolution := resolution; maxHeight := maxHeight;
     heightData := [] |}.

Definition num (n : nat) : Q := inject_Z (Z.of_nat n).

(** [heightData[i][j]]. *)
Definition at_ (grid : list (list Q)) (i j : nat) : option Q :=
  match nth_error grid i with
  | Some row => nth_error row j
  | None => None
  end.

Section Generation.

(** The coherent-noise primitive returned by [createNoise2D]. *)
Variable noise2D : Q -> Q -> Q.

(** [for (let k = 0; k < octaves; k++) { height += ...; frequency *= 2;
    amplitude *= 0.5; }], with [k] iterations left. *)
Fixpoint octaveLoop (k : nat) (x z height frequency amplitude : Q) : Q :=
  match k with
  | O => height
  | S k' =>
      octaveLoop k' x z
        (height + noise2D (x * frequency) (z * frequency) * amplitude)
        (frequency * 2) (amplitude * (5 # 10))
  end.

Definition octaves : nat := 6.

(** The body of the double loop of [generateHeightData] at node [(i, j)]. *)
Definition sampleHeight (resolution : nat) (maxHeight : Q) (i j : nat) : Q :=
  let x := num i / num resolution in
  let z := num j / num resolution in
  let height := octaveLoop octaves x z 0 1 1 in
  let height := (height + 1) / 2 in
  let height := height * maxHeight in
  if Js.lt height (maxHeight * (3 # 10)) then maxHeight * (3 # 10)
  else height.

(** [private generateHeightData()]: [i] and [j] run over
    [0 .. resolution], both ends included. *)
Definition generateHeightData (s : t) : t :=
  {| size := size s; resolution := resolution s; maxHeight := maxHeight s;
     heightData :=
       map (fun i =>
              map (fun j => sampleHeight (resolution s) (maxHeight s) i j)
                  (seq 0 (resolution s + 1)))
           (seq 0 (resolution s + 1)) |}.

End Generation.

(** [private createTerrainGeometry()]: the heights written into the
    plane's vertices.  A plane with [resolution] segments a side has
    [(resolution + 1) * (resolution + 1)] vertices; vertex [j] gets
    [heightData[floor(j / (resolution + 1))][j % (resolution + 1)]]. *)
Definition createTerrainGeometry (s : t) : list (option Q) :=
  map (fun j =>
         at_ (heightData s)
             (Nat.div j (resolution s + 1)) (Nat.modulo j (resolution s + 1)))
      (seq 0 ((resolution s + 1) * (resolution s + 1))).

(** The horizontal placement of the visual surface: the plane is
    centred on the origin, so it spans [-size/2 .. size/2] on both axes. *)
Definition visualMin (s : t) : Q := - (size s / 2).
Definition visualExtent (s : t) : Q := size s.

(** [private createPhysicsBody()], the height-field data: [i] and [j]
    run over [0 .. resolution - 1]. *)
Definition physicsData (s : t) : list (list (option Q)) :=
  map (fun i => map (fun j => at_ (heightData s) i j) (seq 0 (resolution s)))
      (seq 0 (resolution s)).

(** [data[i][j]] of the height-field; [None] outside the array. *)
Definition physicsAt (s : t) (i j : nat) : option (option Q) :=
  match nth_error (physicsData s) i with
  | Some row => nth_error row j
  | None => None
  end.

Definition elementSize (s : t) : Q := size s / num (resolution s).

Definition createPhysicsBody (s : t) : Cannon.Body :=
  {| Cannon.mass := 0;
     Cannon.position := mkVec3 (- size s / 2) 0 (- size s / 2);
     Cannon.velocity := Cannon.zero;
     Cannon.euler := Cannon.zero;
     Cannon.shapes :=
       [(Cannon.Heightfield (physicsData s) (elementSize s), Cannon.zero)];
     Cannon.userData :=
       Some {| Cannon.ud_type := Some "ground"%string;
               Cannon.ud_id := None;
               Cannon.ud_ownerId := None;
               Cannon.ud_damage := None |} |}.

(** The side of the square a height-field covers: its samples are
    [elementSize] apart, so [n] samples span [(n - 1) * elementSize]. *)
Definition physicsExtent (s : t) : Q :=
  (num (length (physicsData s)) - 1) * elementSize s.

(** A grid of [(resolution + 1) x (resolution + 1)] samples. *)
Definition wellFormed (s : t) : Prop :=
  length (heightData s) = (resolution s + 1)%nat /\
  Forall (fun row => length row = (resolution s + 1)%nat) (heightData s).

(** The scenario of the specification. *)
Definition scenario : t := new 1000 128 50.

(** A noise primitive within [-1, 1] that stays at 3/4. *)
Definition plateauNoise (x z : Q) : Q := 3 # 4.

(** [Math.max(0, Math.min(this.resolution, i))] on grid indices. *)
Definition clampIndex (resolution : nat) (i : Z) : Z :=
  Z.max 0 (Z.min (Z.of_nat resolution) i).

(** [Math.floor((coord + this.size / 2) / this.size * this.resolution)]
    on exact numbers; [Terrain64.indexExpr] has the expression as the
    code rounds it. *)
Definition gridIndex (s : t) (coord : Q) : Z :=
  Qfloor ((coord + size s / 2) / size s * num (resolution s)).

(** [public getHeightAt(x, z)]: the returned value and the terrain
    after the call (the method assigns no field). *)
Definition getHeightAt (x z : Q) (s : t) : option Q * t :=
  let i := gridIndex s x in
  let j := gridIndex s z in
  let clampedI := clampIndex (resolution s) i in
  let clampedJ := clampIndex (resolution s) j in
  (at_ (heightData s) (Z.to_nat clampedI) (Z.to_nat clampedJ), s).

End Terrain.

(** ** Terrain: the height query in binary64 *)

Module Terrain64.

Record t : Type := mk {
  size : float;
  resolution : nat;
  maxHeight : float;
  heightData : list (list float)
}.

(** What a call does: it returns a value ([None] for [undefined]) or
    throws a [TypeError]. *)
Inductive outcome : Type :=
| Returns (v : option float)
| Throws.

Definition num (n : nat) : Z := Z.of_nat n.

(** [Math.min(n, v)] and [Math.max(n, v)] for an integer [n] and a value
    of [Math.floor]: NaN when [v] is NaN. *)
Definition min (n : Z) (v : Double.integer) : Double.integer :=
  match v with
  | Double.NaN => Double.NaN
  | Double.NegInfinity => Double.NegInfinity
  | Double.Infinity => Double.Int n
  | Double.Int k => Double.Int (Z.min n k)
  end.

Definition max (n : Z) (v : Double.integer) : Double.integer :=
  match v with
  | Double.NaN => Double.NaN
  | Double.NegInfinity => Double.Int n
  | Double.Infinity => Double.Infinity
  | Double.Int k => Double.Int (Z.max n k)
  end.

(** [l[v]]: [undefined] for NaN, for a negative index and past the end
    of the array. *)
Definition element {A : Type} (l : list A) (v : Double.integer) : option A :=
  match v with
  | Double.Int k => if (k <? 0)%Z then None else nth_error l (Z.to_nat k)
  | _ => None
  end.

(** [(coord + this.size / 2) / this.size * this.resolution] *)
Definition indexExpr (s : t) (coord : float) : float :=
  ((coord + size s / 2) / size s * Double.ofNat (resolution s))%float.

(** [public getHeightAt(x, z)]: what the call does, and the terrain
    after it (the method assigns no field).  Reading
    [this.heightData[clampedI][clampedJ]] throws when
    [this.heightData[clampedI]] is [undefined]. *)
Definition getHeightAt (x z : float) (s : t) : outcome * t :=
  let i := Double.floor (indexExpr s x) in
  let j := Double.floor (indexExpr s z) in
  let clampedI := max 0 (min (num (resolution s)) i) in
  let clampedJ := max 0 (min (num (resolution s)) j) in
  match element (heightData s) clampedI with
  | None => (Throws, s)
  | Some row => (Returns (element row clampedJ), s)
  end.

(** [heightData[i][j]] for integers [i] and [j]. *)
Definition at_ (s : t) (i j : Z) : option float :=
  match element (heightData s) (Double.Int i) with
  | None => None
  | Some row => element row (Double.Int j)
  end.

(** A grid of [(resolution + 1) x (resolution + 1)] samples, as
    [generateHeightData] leaves it. *)
Definition wellFormed (s : t) : Prop :=
  length (heightData s) = S (resolution s) /\
  forall row, In row (heightData s) -> length row = S (resolution s).

(** An index brought into [0 .. resolution]: 0 below the range,
    [resolution] above it. *)
Definition clamped (resolution : nat) (v : Double.integer) : Z :=
  match v with
  | Double.NaN => 0
  | Double.NegInfinity => 0
  | Double.Infinity => num resolution
  | Double.Int k =>
      if (k <? 0)%Z then 0%Z
      else if (num resolution <? k)%Z then num resolution else k
  end.

(** A terrain whose row [i] holds the height [i] at every column. *)
Definition ramp (size : float) (resolution : nat) : t :=
  {| size := size; resolution := resolution; maxHeight := 50;
     heightData :=
       map (fun i => repeat (Double.ofNat i) (S resolution))
           (seq 0 (S resolution)) |}.

End Terrain64.

(** ** WorldObject *)

Module WorldObject.

Record t : Type := mk {
  type : string;
  position : Vec3;
  scale : Vec3;
  rotation : Vec3;
  id : string
}.

(** [private createPhysicsBody()], up to [physicsWorld.addBody]: the
    body built by the [switch] on [this.type].  [rnd] holds the three
    values [Math.random()] returns in the building branch.  After the
    [switch] the method sets the body's orientation, its [type] to
    static and its numeric [id]; it assigns no [userData]. *)
Definition createPhysicsBody (rnd : Q * Q * Q) (w : t) : Cannon.Body :=
  let p := position w in
  let sc := scale w in
  if String.eqb (type w) "tree" then
    {| Cannon.mass := 0;
       Cannon.position := mkVec3 (vx p) (vy p) (vz p);
       Cannon.velocity := Cannon.zero;
       Cannon.euler := rotation w;
       Cannon.shapes :=
         [(Cannon.Cylinder ((2 # 10) * vx sc) ((3 # 10) * vx sc) (2 * vy sc) 8,
           mkVec3 0 (1 * vy sc) 0)];
       Cannon.userData := None |}
  else if String.eqb (type w) "rock" then
    {| Cannon.mass := 0;
       Cannon.position := mkVec3 (vx p) (vy p) (vz p);
       Cannon.velocity := Cannon.zero;
       Cannon.euler := rotation w;
       Cannon.shapes :=
         [(Cannon.Box (mkVec3 ((8 # 10) * vx sc) ((8 # 10) * vy sc)
                              ((8 # 10) * vz sc)),
           Cannon.zero)];
       Cannon.userData := None |}
  else if String.eqb (type w) "building" then
    let '(r1, r2, r3) := rnd in
    let buildingWidth := 2 + r1 * 2 in
    let buildingDepth := 2 + r2 * 2 in
    let buildingHeight := 2 + r3 * 3 in
    {| Cannon.mass := 0;
       Cannon.position :=
         mkVec3 (vx p) (vy p + buildingHeight / 2 * vy sc) (vz p);
       Cannon.velocity := Cannon.zero;
       Cannon.euler := rotation w;
       Cannon.shapes :=
         [(Cannon.Box (mkVec3 (buildingWidth / 2 * vx sc)
                              (buildingHeight / 2 * vy sc)
                              (buildingDepth / 2 * vz sc)),
           Cannon.zero)];
       Cannon.userData := None |}
  else
    {| Cannon.mass := 0;
       Cannon.position := mkVec3 (vx p) (vy p) (vz p);
       Cannon.velocity := Cannon.zero;
       Cannon.euler := rotation w;
       Cannon.shapes :=
         [(Cannon.Box (mkVec3 ((5 # 10) * vx sc) ((5 # 10) * vy sc)
                              ((5 # 10) * vz sc)),
           Cannon.zero)];
       Cannon.userData := None |}.

End WorldObject.

(** ** CollisionManager *)

Module CollisionManager.

Import Cannon.

(** The typed events the manager emits, with their payloads. *)
Inductive Event : Type :=
| projectileHitTank
    (projectileId tankId projectileOwnerId : option string)
    (damage : Q) (position : Vec3)
| projectileHitObstacle (projectileId obstacleId : option string)
    (position : Vec3)
| projectileHitGround (projectileId : option string) (position : Vec3)
| tankHitObstacle (tankId obstacleId : option string)
| tankHitGround (tankId : option string) (position : Vec3).

(** [body.userData?.type], [?.id], [?.ownerId], [?.damage]. *)
Definition typeOf (b : Body) : option string :=
  match userData b with Some u => ud_type u | None => None end.
Definition idOf (b : Body) : option string :=
  match userData b with Some u => ud_id u | None => None end.
Definition ownerIdOf (b : Body) : option string :=
  match userData b with Some u => ud_ownerId u | None => None end.
Definition damageOf (b : Body) : option Q :=
  match userData b with Some u => ud_damage u | None => None end.

(** [body.userData?.type === tag] *)
Definition hasType (b : Body) (tag : string) : bool :=
  match typeOf b with
  | Some s => String.eqb s tag
  | None => false
  end.

(** [v || 20] on an optional number: [undefined] and [0] are falsy. *)
Definition orDefault (v : option Q) (d : Q) : Q :=
  match v with
  | Some q => if Qeq_bool q 0 then d else q
  | None => d
  end.

(** [(A is x && B is y) || (A is y && B is x)] *)
Definition pairIs (a b : Body) (x y : string) : bool :=
  (hasType a x && hasType b y) || (hasType a y && hasType b x).

(** [bodyA.userData?.type === tag ? bodyA : bodyB] *)
Definition pick (a b : Body) (tag : string) : Body :=
  if hasType a tag then a else b.

(** The [beginContact] listener installed by [setupCollisionEvents]:
    the events emitted, in order, for one contact.  A [null] body is
    [None]. *)
Definition beginContact (bodyA bodyB : option Body) : list Event :=
  match bodyA, bodyB with
  | Some a, Some b =>
      (if pairIs a b "projectile" "tank" then
         let projectileBody := pick a b "projectile" in
         let tankBody := pick a b "tank" in
         [projectileHitTank (idOf projectileBody) (idOf tankBody)
            (ownerIdOf projectileBody)
            (orDefault (damageOf projectileBody) 20)
            (position projectileBody)]
       else [])
      ++
      (if pairIs a b "projectile" "obstacle" then
         let projectileBody := pick a b "projectile" in
         let obstacleBody := pick a b "obstacle" in
         [projectileHitObstacle (idOf projectileBody) (idOf obstacleBody)
            (position projectileBody)]
       else [])
      ++
      (if pairIs a b "projectile" "ground" then
         let projectileBody := pick a b "projectile" in
         [projectileHitGround (idOf projectileBody)
            (position projectileBody)]
       else [])
      ++
      (if pairIs a b "tank" "obstacle" then
         let tankBody := pick a b "tank" in
         let obstacleBody := pick a b "obstacle" in
         [tankHitObstacle (idOf tankBody) (idOf obstacleBody)]
       else [])
      ++
      (if pairIs a b "tank" "ground" then
         let tankBody := pick a b "tank" in
         [tankHitGround (idOf tankBody) (position tankBody)]
       else [])
  | _, _ => []
  end.

(** The four role tags of the specification. *)
Inductive Role : Type := tank | projectile | ground | obstacle.

Definition roleOfTag (s : string) : option Role :=
  if String.eqb s "tank" then Some tank
  else if String.eqb s "projectile" then Some projectile
  else if String.eqb s "ground" then Some ground
  else if String.eqb s "obstacle" then Some obstacle
  else None.

(** The role a body carries, if its tag is present and known. *)
Definition roleOf (b : Body) : option Role :=
  match typeOf b with
  | Some s => roleOfTag s
  | None => None
  end.

(** The five unordered role pairs the classifier knows. *)
Definition knownPair (r1 r2 : Role) : bool :=
  match r1, r2 with
  | projectile, tank | tank, projectile
  | projectile, obstacle | obstacle, projectile
  | projectile, ground | ground, projectile
  | tank, obstacle | obstacle, tank
  | tank, ground | ground, tank => true
  | _, _ => false
  end.

(** The kind of event the specification assigns to a known pair. *)
Definition isEventFor (r1 r2 : Role) (e : Event) : bool :=
  match r1, r2, e with
  | projectile, tank, projectileHitTank _ _ _ _ _
  | tank, projectile, projectileHitTank _ _ _ _ _
  | projectile, obstacle, projectileHitObstacle _ _ _
  | obstacle, projectile, projectileHitObstacle _ _ _
  | projectile, ground, projectileHitGround _ _
  | ground, projectile, projectileHitGround _ _
  | tank, obstacle, tankHitObstacle _ _
  | obstacle, tank, tankHitObstacle _ _
  | tank, ground, tankHitGround _ _
  | ground, tank, tankHitGround _ _ => true
  | _, _, _ => false
  end.

(** The event the specification expects for a contact of a body [a] of
    role [r1] with a body [b] of role [r2], with the ids and payload taken
    by role; none for a pair that is not one of the five. *)
Definition eventOf (r1 r2 : Role) (a b : Body) : option Event :=
  match r1, r2 with
  | projectile, tank =>
      Some (projectileHitTank (idOf a) (idOf b) (ownerIdOf a)
              (orDefault (damageOf a) 20) (position a))
  | tank, projectile =>
      Some (projectileHitTank (idOf b) (idOf a) (ownerIdOf b)
              (orDefault (damageOf b) 20) (position b))
  | projectile, obstacle =>
      Some (projectileHitObstacle (idOf a) (idOf b) (position a))
  | obstacle, projectile =>
      Some (projectileHitObstacle (idOf b) (idOf a) (position b))
  | projectile, ground => Some (projectileHitGround (idOf a) (position a))
  | ground, projectile => Some (projectileHitGround (idOf b) (position b))
  | tank, obstacle => Some (tankHitObstacle (idOf a) (idOf b))
  | obstacle, tank => Some (tankHitObstacle (idOf b) (idOf a))
  | tank, ground => Some (tankHitGround (idOf a) (position a))
  | ground, tank => Some (tankHitGround (idOf b) (position b))
  | _, _ => None
  end.

Definition isObstacleEvent (e : Event) : bool :=
  match e with
  | projectileHitObstacle _ _ _ | tankHitObstacle _ _ => true
  | _ => false
  end.

End CollisionManager.

(** ** Entity and EntityManager *)

Module EntityManager.

(** An entity as the manager sees it: its id and the handles of its
    visual node and physics body (object identity as a number). *)
Record Entity : Type := mkEntity {
  getId : string;
  getObject3D : option nat;
  getPhysicsBody : option nat
}.

(** The manager together with the scene and physics world it was
    given, and the trace of [dispose()] calls made on entities. *)
Record t : Type := mk {
  scene : list nat;
  physicsWorld : list nat;
  entities : gmap string Entity;
  disposed : list string
}.

(** [public removeEntity(entity)] *)
Definition removeEntity (e : Entity) (m : t) : t :=
  {| entities := delete (getId e) (entities m);
     scene :=
       match getObject3D e with
       | Some o => Js.removeFirst o (scene m)
       | None => scene m
       end;
     physicsWorld :=
       match getPhysicsBody e with
       | Some b => Js.removeFirst b (physicsWorld m)
       | None => physicsWorld m
       end;
     disposed := disposed m ++ [getId e] |}.

(** [scene.add] and [world.addBody] as the libraries do them: a node
    is moved to the end of the scene's children, a body already in the
    world is not added again. *)
Definition sceneAdd (o : nat) (sc : list nat) : list nat :=
  Js.removeFirst o sc ++ [o].
Definition addBody (b : nat) (w : list nat) : list nat :=
  if existsb (Nat.eqb b) w then w else w ++ [b].

(** [public addEntity(entity)] *)
Definition addEntity (e : Entity) (m : t) : t :=
  {| entities := <[getId e := e]> (entities m);
     scene :=
       match getObject3D e with
       | Some o => sceneAdd o (scene m)
       | None => scene m
       end;
     physicsWorld :=
       match getPhysicsBody e with
       | Some b => addBody b (physicsWorld m)
       | None => physicsWorld m
       end;
     disposed := disposed m |}.

Definition empty : t :=
  {| scene := []; physicsWorld := []; entities := ∅; disposed := [] |}.

(** A player and its tank share one visual node and one body; the
    player is registered, the tank is not. *)
Definition player : Entity :=
  {| getId := "player_1"; getObject3D := Some 7%nat;
     getPhysicsBody := Some 9%nat |}.
Definition playerTank : Entity :=
  {| getId := "tank_1"; getObject3D := Some 7%nat;
     getPhysicsBody := Some 9%nat |}.

(** [public getEntity(id)] *)
Definition getEntity (id : string) (m : t) : option Entity :=
  entities m !! id.

(** [public clear()]: [removeEntity] on every entity of the map, then
    [entities.clear()].  [order] is the order in which [forEach] visits
    the entities; a JavaScript map visits them in insertion order. *)
Definition clearVisiting (order : list Entity) (m : t) : t :=
  let m' := fold_left (fun acc e => removeEntity e acc) order m in
  {| scene := scene m'; physicsWorld := physicsWorld m';
     entities := ∅; disposed := disposed m' |}.

(** The entities the registry holds, in some order. *)
Definition registered (m : t) : list Entity := (map_to_list (entities m)).*2.

Definition clear (m : t) : t := clearVisiting (registered m) m.

(** Every entity is stored under its own id, as [addEntity] does. *)
Definition wellKeyed (m : t) : Prop :=
  forall id e, entities m !! id = Some e -> getId e = id.

(** Calls a client can make on the manager. *)
Inductive op : Type :=
| Add (e : Entity)
| Remove (e : Entity)
| Clear.

Definition step (o : op) (m : t) : t :=
  match o with
  | Add e => addEntity e m
  | Remove e => removeEntity e m
  | Clear => clear m
  end.

Definition run (ops : list op) (m : t) : t :=
  fold_left (fun acc o => step o acc) ops m.

End EntityManager.

(** ** EventEmitter *)

Module EventEmitter.

(** A listener.  [Plain f] is a function [f] that records its call and
    does not call back into the emitter.  [Once h f] is the closure
    [onceCallback] that [once] builds around [f]: [h] is the identity of
    the closure, new at every call of [once]. *)
Inductive Callback : Type :=
| Plain (f : nat)
| Once (h f : nat).

#[global] Instance Callback_eq_dec : EqDecision Callback.
Proof. solve_decision. Defined.

(** [private events: Map<string, EventCallback[]>] *)
Abbreviation t := (gmap string (list Callback)).

(** [callbacks.indexOf(callback)] then [callbacks.splice(index, 1)]. *)
Fixpoint spliceFirst (cb : Callback) (l : list Callback) : list Callback :=
  match l with
  | [] => []
  | y :: l' => if decide (cb = y) then l' else y :: spliceFirst cb l'
  end.

(** [public on(event, callback)] *)
Definition on (event : string) (cb : Callback) (m : t) : t :=
  <[event := default [] (m !! event) ++ [cb]]> m.

(** [public off(event, callback)] *)
Definition off (event : string) (cb : Callback) (m : t) : t :=
  match m !! event with
  | None => m
  | Some callbacks =>
      match spliceFirst cb callbacks with
      | [] => delete event m
      | callbacks' => <[event := callbacks']> m
      end
  end.

(** [public once(event, callback)]: registers the closure [Once h f]. *)
Definition once (event : string) (h f : nat) (m : t) : t :=
  on event (Once h f) m.

(** The [for (const callback of callbacks)] loop of [emit].  The array
    is read at index [i] at every turn, as the array iterator does, so a
    listener that takes itself out of [callbacks] (a [Once], through
    [off]) shifts the listeners behind it.  [callbacks] is the array the
    loop holds, [m] the emitter, [calls] the functions called so far. *)
Fixpoint emitLoop (fuel : nat) (event : string) (i : nat)
    (callbacks : list Callback) (m : t) (calls : list nat) :
    list Callback * t * list nat :=
  match fuel with
  | O => (callbacks, m, calls)
  | S fuel' =>
      match nth_error callbacks i with
      | None => (callbacks, m, calls)
      | Some (Plain f) =>
          emitLoop fuel' event (S i) callbacks m (calls ++ [f])
      | Some (Once h f) =>
          emitLoop fuel' event (S i)
            (spliceFirst (Once h f) callbacks)
            (off event (Once h f) m) (calls ++ [f])
      end
  end.

(** [public emit(event, ...args)]: the emitter after the call and the
    functions called, in order.  The loop makes at most one turn per
    listener present at the start. *)
Definition emit (event : string) (m : t) : t * list nat :=
  match m !! event with
  | None => (m, [])
  | Some callbacks =>
      let '(_, m', calls) :=
        emitLoop (length callbacks) event 0 callbacks m [] in
      (m', calls)
  end.

(** [public removeAllListeners(event?)]: [if (event)] is false for a
    missing argument and for the empty string. *)
Definition removeAllListeners (event : option string) (m : t) : t :=
  match event with
  | Some e => if String.eqb e "" then ∅ else delete e m
  | None => ∅
  end.

(** What one [emit] calls, read off the list of listeners: a [Once]
    listener is called and leaves, and the listener behind it moves into
    its place and is passed over. *)
Fixpoint called (l : list Callback) : list nat :=
  match l with
  | [] => []
  | Plain f :: l' => f :: called l'
  | Once _ f :: l' =>
      f :: match l' with
           | [] => []
           | _ :: l'' => called l''
           end
  end.

(** The listeners left after one [emit]. *)
Fixpoint remaining (l : list Callback) : list Callback :=
  match l with
  | [] => []
  | Plain f :: l' => Plain f :: remaining l'
  | Once _ _ :: l' =>
      match l' with
      | [] => []
      | x :: l'' => x :: remaining l''
      end
  end.

Definition isOnce (cb : Callback) : bool :=
  match cb with Once _ _ => true | Plain _ => false end.

Definition fnOf (cb : Callback) : nat :=
  match cb with Plain f | Once _ f => f end.

(** Every [once] closure is registered at most once for the event. *)
Definition onceUnique (l : list Callback) : Prop :=
  NoDup (filter (fun cb => isOnce cb = true) l).

(** No event is kept with an empty list of listeners. *)
Definition noEmptyList (m : t) : Prop :=
  forall e l, m !! e = Some l -> l <> [].

(** The emitter [m] with the listeners of [event] replaced by
    [callbacks], the event dropped when none is left. *)
Definition withListeners (event : string) (callbacks : list Callback)
    (m : t) : t :=
  match callbacks with
  | [] => delete event m
  | _ => <[event := callbacks]> m
  end.

(** Calls a client can make on the emitter. *)
Inductive op : Type :=
| On (event : string) (cb : Callback)
| Off (event : string) (cb : Callback)
| Emit (event : string)
| RemoveAllListeners (event : option string).

Definition step (o : op) (m : t) : t :=
  match o with
  | On e cb => on e cb m
  | Off e cb => off e cb m
  | Emit e => fst (emit e m)
  | RemoveAllListeners e => removeAllListeners e m
  end.

Definition run (ops : list op) (m : t) : t :=
  fold_left (fun acc o => step o acc) ops m.

End EventEmitter.

(** ** Player (score keeping) *)

Module Player.

Record t : Type := mk {
  score : Z;
  kills : Z;
  deaths : Z
}.

(** The field initialisers of the class. *)
Definition new : t := {| score := 0; kills := 0; deaths := 0 |}.

(** [public addKill()] *)
Definition addKill (p : t) : t :=
  {| score := score p + 100; kills := kills p + 1; deaths := deaths p |}.

(** [public addDeath()] *)
Definition addDeath (p : t) : t :=
  {| score := score p; kills := kills p; deaths := deaths p + 1 |}.

Inductive op : Type := AddKill | AddDeath.

Definition step (o : op) (p : t) : t :=
  match o with AddKill => addKill p | AddDeath => addDeath p end.

Definition run (ops : list op) (p : t) : t :=
  fold_left (fun acc o => step o acc) ops p.

Definition isKill (o : op) : bool :=
  match o with AddKill => true | AddDeath => false end.

End Player.

(** ** WorldManager *)

Module WorldManager.

(** A position whose height comes from a terrain query; [py] is [None]
    where the query found no sample. *)
Record Point : Type := mkPoint { px : Q; py : option Q; pz : Q }.

Record t : Type := mk {
  terrain : option Terrain.t;
  spawnPoints : list Point
}.

(** [private getRandomPosition()]; [r1], [r2] are the two values of
    [Math.random()]. *)
Definition getRandomPosition (r1 r2 : Q) : Point :=
  let mapSize := 1000 in
  let margin := 50 in
  {| px := r1 * (mapSize - margin * 2) - (mapSize / 2 - margin);
     py := Some 0;
     pz := r2 * (mapSize - margin * 2) - (mapSize / 2 - margin) |}.

(** [terrain.getHeightAt(x, z) + offset] when there is a terrain. *)
Definition heightPlus (w : t) (x z offset : Q) (otherwise : option Q) :
    option Q :=
  match terrain w with
  | Some tr =>
      match fst (Terrain.getHeightAt x z tr) with
      | Some h => Some (h + offset)
      | None => None
      end
  | None => otherwise
  end.

(** [private generateSpawnPoints()]; [random k] is the value of the
    [k]-th call of [Math.random()], two calls a spawn point. *)
Definition generateSpawnPoints (random : nat -> Q) (w : t) : t :=
  let numSpawnPoints := 10%nat in
  let mapSize := 1000 in
  let margin := 100 in
  {| terrain := terrain w;
     spawnPoints :=
       spawnPoints w ++
       map (fun i =>
              let x := random (2 * i)%nat * (mapSize - margin * 2)
                       - (mapSize / 2 - margin) in
              let z := random (2 * i + 1)%nat * (mapSize - margin * 2)
                       - (mapSize / 2 - margin) in
              {| px := x; py := heightPlus w x z 2 (Some 0); pz := z |})
           (seq 0 numSpawnPoints) |}.

(** [public getRandomSpawnPosition()]; [r] is the value of
    [Math.random()] that picks the spawn point, [r1], [r2] the ones the
    fallback position uses.  [None] is a read outside [spawnPoints]. *)
Definition getRandomSpawnPosition (r r1 r2 : Q) (w : t) : option Point :=
  match spawnPoints w with
  | [] =>
      let position := getRandomPosition r1 r2 in
      Some {| px := px position;
              py := heightPlus w (px position) (pz position) 2
                      (py position);
              pz := pz position |}
  | _ =>
      let index := Qfloor (r * Terrain.num (length (spawnPoints w))) in
      if (index <? 0)%Z then None
      else nth_error (spawnPoints w) (Z.to_nat index)
  end.

(** [public getTerrainHeightAt(x, z)] *)
Definition getTerrainHeightAt (x z : Q) (w : t) : option Q :=
  match terrain w with
  | Some tr => fst (Terrain.getHeightAt x z tr)
  | None => Some 0
  end.

(** The terrain [generateWorld] builds, from the noise it draws. *)
Definition generateTerrain (noise2D : Q -> Q -> Q) : t :=
  {| terrain :=
       Some (Terrain.generateHeightData noise2D (Terrain.new 1000 128 50));
     spawnPoints := [] |}.

End WorldManager.

(** * Properties *)

(** ** Number helpers *)

Lemma Js_max_cases (a b : Q) :
  (a <= b /\ Js.max a b = b) \/ (b < a /\ Js.max a b = a).
Proof.
  unfold Js.max. destruct (Qle_bool a b) eqn:E.
  - left. split; [now apply Qle_bool_iff | reflexivity].
  - right. split; [| reflexivity].
    apply Qnot_le_lt. intro H. apply Qle_bool_iff in H. congruence.
Qed.

Lemma Js_min_cases (a b : Q) :
  (a <= b /\ Js.min a b = a) \/ (b < a /\ Js.min a b = b).
Proof.
  unfold Js.min. destruct (Qle_bool a b) eqn:E.
  - left. split; [now apply Qle_bool_iff | reflexivity].
  - right. split; [| reflexivity].
    apply Qnot_le_lt. intro H. apply Qle_bool_iff in H. congruence.
Qed.

Lemma Js_ge_true (a b : Q) : Js.ge a b = true <-> b <= a.
Proof. unfold Js.ge. apply Qle_bool_iff. Qed.

Lemma Js_ge_false (a b : Q) : Js.ge a b = false <-> a < b.
Proof.
  unfold Js.ge. split; intro H.
  - apply Qnot_le_lt. intro L. apply Qle_bool_iff in L. congruence.
  - destruct (Qle_bool b a) eqn:E; [| reflexivity].
    apply Qle_bool_iff in E. lra.
Qed.

Lemma Js_lt_true (a b : Q) : Js.lt a b = true <-> a < b.
Proof.
  unfold Js.lt. rewrite negb_true_iff. apply (Js_ge_false a b).
Qed.

Lemma Js_lt_false (a b : Q) : Js.lt a b = false <-> b <= a.
Proof.
  unfold Js.lt. rewrite negb_false_iff. apply Qle_bool_iff.
Qed.

(** ** Binary64 comparisons *)

Section DoubleOrder.

(** Swapping the two sides of a comparison swaps its result. *)
Lemma SFcompare_antisym (a b : spec_float) :
  SFcompare b a = option_map CompOpp (SFcompare a b).
Proof.
  destruct a as [sa | sa | | sa ma ea], b as [sb | sb | | sb mb eb]; cbn;
    try reflexivity;
    try (destruct sa; reflexivity); try (destruct sb; reflexivity);
    try (destruct sa, sb; reflexivity).
  destruct sa, sb; cbn; try reflexivity.
  - rewrite (Z.compare_antisym ea eb).
    destruct (ea ?= eb)%Z; cbn; try reflexivity.
    f_equal. f_equal.
    change (Pos.compare_cont Eq mb ma) with (Pos.compare mb ma).
    change (Pos.compare_cont Eq ma mb) with (Pos.compare ma mb).
    apply Pos.compare_antisym.
  - rewrite (Z.compare_antisym ea eb).
    destruct (ea ?= eb)%Z; cbn; try reflexivity.
    f_equal.
    change (Pos.compare_cont Eq mb ma) with (Pos.compare mb ma).
    change (Pos.compare_cont Eq ma mb) with (Pos.compare ma mb).
    apply Pos.compare_antisym.
Qed.

(** [a < b] rules out [a >= b]. *)
Lemma Double_lt_not_ge (a b : float) :
  (a <? b)%float = true -> Double.ge a b = false.
Proof.
  unfold Double.ge. rewrite FloatAxioms.ltb_spec, FloatAxioms.leb_spec. unfold SFltb, SFleb.
  rewrite (SFcompare_antisym (Prim2SF a) (Prim2SF b)).
  destruct (SFcompare (Prim2SF a) (Prim2SF b)) as [[| |] |]; cbn; congruence.
Qed.

(** [a == b] gives [a >= b]. *)
Lemma Double_eq_ge (a b : float) :
  (a =? b)%float = true -> Double.ge a b = true.
Proof.
  unfold Double.ge. rewrite FloatAxioms.eqb_spec, FloatAxioms.leb_spec. unfold SFeqb, SFleb.
  rewrite (SFcompare_antisym (Prim2SF a) (Prim2SF b)).
  destruct (SFcompare (Prim2SF a) (Prim2SF b)) as [[| |] |]; cbn; congruence.
Qed.

(** When [a >= b] is false, either [a < b] or one side is NaN. *)
Lemma Double_not_ge (a b : float) :
  Double.ge a b = false ->
  (a <? b)%float = true \/ Double.isNaN a = true \/ Double.isNaN b = true.
Proof.
  unfold Double.ge. rewrite FloatAxioms.ltb_spec, FloatAxioms.leb_spec.
  unfold SFltb, SFleb, Double.isNaN.
  rewrite (SFcompare_antisym (Prim2SF a) (Prim2SF b)).
  destruct (Prim2SF a) as [sa | sa | | sa ma ea],
           (Prim2SF b) as [sb | sb | | sb mb eb];
    cbn; auto.
  all: try (destruct sa; cbn; auto; fail).
  all: try (destruct sb; cbn; auto; fail).
  all: try (destruct sa, sb; cbn; auto; fail).
  destruct sa, sb; cbn; auto; destruct (ea ?= eb)%Z; cbn; auto;
    destruct (Pos.compare_cont Eq ma mb); cbn; auto.
Qed.

End DoubleOrder.

(** ** Tank: firing *)

Section TankFire.

Import Tank.

Lemma fire_refused (s : Tank.t) :
  (ammo s <= 0)%Z \/ isReloading s = true -> fire s = (false, s).
Proof.
  intros [H | H]; unfold fire.
  - apply Z.leb_le in H. now rewrite H.
  - rewrite H. now rewrite orb_true_r.
Qed.

Lemma fire_accepted (s : Tank.t) :
  (0 < ammo s)%Z -> isReloading s = false ->
  fire s =
    (true,
     if (ammo s - 1 =? 0)%Z
     then startReload (set_ammo (ammo s - 1) s)
     else set_ammo (ammo s - 1) s).
Proof.
  intros Hpos Hrel. unfold fire. rewrite Hrel.
  destruct (ammo s <=? 0)%Z eqn:E; [apply Z.leb_le in E; lia |].
  cbn [orb set_ammo ammo].
  destruct (ammo s - 1 =? 0)%Z eqn:E0.
  - apply Z.eqb_eq in E0. rewrite E0. reflexivity.
  - apply Z.eqb_neq in E0.
    destruct (ammo s - 1 <=? 0)%Z eqn:E1; [apply Z.leb_le in E1; lia |].
    reflexivity.
Qed.

Lemma fire_ammo_nonneg (s : Tank.t) :
  (0 <= ammo s)%Z -> (0 <= ammo (snd (fire s)))%Z.
Proof.
  intros H. unfold fire.
  destruct ((ammo s <=? 0)%Z || isReloading s) eqn:E; [exact H |].
  apply orb_false_iff in E. destruct E as [E _]. apply Z.leb_gt in E.
  cbn [set_ammo ammo].
  destruct (ammo s - 1 <=? 0)%Z; cbn; lia.
Qed.

Lemma fires_ammo_nonneg (n : nat) :
  forall s : Tank.t, (0 <= ammo s)%Z -> (0 <= ammo (snd (fires n s)))%Z.
Proof.
  induction n as [| n IH]; intros s H; [exact H |].
  cbn [fires].
  pose proof (fire_ammo_nonneg s H) as H1.
  destruct (fire s) as [b s1]. cbn [snd] in H1.
  specialize (IH s1 H1).
  destruct (fires n s1) as [bs s2]. exact IH.
Qed.

Lemma step_ammoInRange (o : op) (s : Tank.t) :
  ammoInRange s ->
  ammoInRange (step o s) /\ maxAmmo (step o s) = maxAmmo s.
Proof.
  unfold ammoInRange. intros [H0 H1].
  destruct o; cbn [step].
  - unfold fire.
    destruct ((ammo s <=? 0)%Z || isReloading s) eqn:E; cbn [snd];
      [lia |].
    apply orb_false_iff in E. destruct E as [E _]. apply Z.leb_gt in E.
    cbn [set_ammo ammo].
    destruct (ammo s - 1 <=? 0)%Z; cbn; lia.
  - unfold update. destruct (isReloading s); [| lia].
    cbn [set_reload reloadTimer reloadTime maxAmmo].
    destruct (Js.ge _ _); cbn; lia.
  - unfold reloadInput.
    destruct (reload && negb (isReloading s) && (ammo s <? maxAmmo s)%Z);
      cbn; lia.
  - cbn. lia.
  - cbn. lia.
  - cbn. lia.
  - cbn. lia.
Qed.

Lemma run_ammoInRange (ops : list op) :
  forall s : Tank.t, ammoInRange s -> ammoInRange (run ops s).
Proof.
  induction ops as [| o ops IH]; intros s H; [exact H |].
  cbn [run fold_left]. apply IH. now apply step_ammoInRange.
Qed.

(** Every state a new tank can reach has its ammunition within
    [0, maxAmmo]. *)
Lemma reachable_ammoInRange (ops : list op) : ammoInRange (run ops new).
Proof. apply run_ammoInRange. split; cbn; lia. Qed.

(** The scenario of the specification, on any tank with five rounds
    that is not reloading. *)
Lemma fires_five_of_five (s : Tank.t) :
  ammo s = 5%Z -> isReloading s = false ->
  fst (fires 6 s) = [true; true; true; true; true; false] /\
  isReloading (snd (fires 4 s)) = false /\
  ammo (snd (fires 4 s)) = 1%Z /\
  isReloading (snd (fires 5 s)) = true /\
  reloadTimer (snd (fires 5 s)) = 0 /\
  ammo (snd (fires 5 s)) = 0%Z /\
  snd (fires 6 s) = snd (fires 5 s).
Proof.
  intros Ha Hr. destruct s as [h mh a ma rt r tm dd].
  cbn in Ha, Hr. subst a r.
  repeat split; reflexivity.
Qed.

End TankFire.

(** [C4] [fire()] on a tank whose ammunition is not negative: it returns
    [false] and leaves the tank as it is when the ammunition is 0 or the
    tank is reloading; otherwise it takes one round, starts the reload
    (flag set, timer at 0) exactly when the ammunition reaches 0, changes
    nothing else, and returns [true].  The ammunition stays non-negative
    under every number of calls, and under every sequence of calls of the
    class when it starts within [0, maxAmmo].  With five rounds of five,
    five calls return [true], the fifth starts the reload, and the sixth
    returns [false]. *)
Theorem C4_fire_contract (s : Tank.t) (Hammo : (0 <= Tank.ammo s)%Z) :
  (Tank.ammo s = 0%Z \/ Tank.isReloading s = true ->
   Tank.fire s = (false, s)) /\
  (Tank.ammo s <> 0%Z -> Tank.isReloading s = false ->
   exists s',
     Tank.fire s = (true, s') /\
     Tank.ammo s' = (Tank.ammo s - 1)%Z /\
     (Tank.isReloading s' = true <-> Tank.ammo s' = 0%Z) /\
     (Tank.ammo s' = 0%Z -> Tank.reloadTimer s' = 0) /\
     (Tank.ammo s' <> 0%Z -> Tank.reloadTimer s' = Tank.reloadTimer s) /\
     Tank.health s' = Tank.health s /\
     Tank.maxHealth s' = Tank.maxHealth s /\
     Tank.maxAmmo s' = Tank.maxAmmo s /\
     Tank.reloadTime s' = Tank.reloadTime s /\
     Tank.damageDealt s' = Tank.damageDealt s) /\
  (forall n, (0 <= Tank.ammo (snd (Tank.fires n s)))%Z) /\
  (forall ops, (Tank.ammo s <= Tank.maxAmmo s)%Z ->
               (0 <= Tank.ammo (Tank.run ops s))%Z) /\
  (Tank.ammo s = 5%Z -> Tank.isReloading s = false ->
   fst (Tank.fires 6 s) = [true; true; true; true; true; false] /\
   Tank.isReloading (snd (Tank.fires 4 s)) = false /\
   Tank.isReloading (snd (Tank.fires 5 s)) = true /\
   Tank.ammo (snd (Tank.fires 5 s)) = 0%Z).
Proof.
  split; [| split; [| split; [| split]]].
  - intros [H | H]; apply fire_refused; [left; lia | now right].
  - intros Hne Hrel.
    assert (Hpos : (0 < Tank.ammo s)%Z) by lia.
    rewrite (fire_accepted s Hpos Hrel).
    destruct (Tank.ammo s - 1 =? 0)%Z eqn:E.
    + apply Z.eqb_eq in E. eexists. split; [reflexivity |].
      cbn. repeat split; auto; try lia; try congruence.
    + apply Z.eqb_neq in E. eexists. split; [reflexivity |].
      cbn. rewrite Hrel. repeat split; auto; try lia; try congruence.
  - intros n. now apply fires_ammo_nonneg.
  - intros ops Hle.
    apply (run_ammoInRange ops s). split; assumption.
  - intros Ha Hr.
    destruct (fires_five_of_five s Ha Hr) as (H1 & H2 & _ & H3 & _ & H4 & _).
    repeat split; assumption.
Qed.

Lemma C4_fire_contract_witness :
  fst (Tank.fires 6 Tank.new) = [true; true; true; true; true; false] /\
  Tank.isReloading (snd (Tank.fires 4 Tank.new)) = false /\
  Tank.isReloading (snd (Tank.fires 5 Tank.new)) = true /\
  Tank.ammo (snd (Tank.fires 5 Tank.new)) = 0%Z.
Proof.
  assert (H : (0 <= Tank.ammo Tank.new)%Z) by (simpl; lia).
  apply (C4_fire_contract Tank.new H); reflexivity.
Defined.

(** ** Tank: health *)

Section HealthRange.

Import TankHealth.

Lemma Number_le_Finite (a b : Q) :
  Number.le (Number.Finite a) (Number.Finite b) = true <-> a <= b.
Proof. cbn. apply Qle_bool_iff. Qed.

(** A state within range whose [maxHealth] is finite holds two finite
    numbers. *)
Lemma inRange_finite (s : TankHealth.t) :
  finiteMax s -> inRange s ->
  exists h m, health s = Number.Finite h /\ maxHealth s = Number.Finite m /\
              0 <= h /\ h <= m.
Proof.
  intros [m Hm] [H0 H1]. rewrite Hm in H1.
  destruct (health s) as [| | | h] eqn:Eh; cbn in H0, H1; try discriminate.
  exists h, m. repeat split; auto; now apply Qle_bool_iff.
Qed.

Lemma finite_inRange (h m : Q) (s : TankHealth.t) :
  health s = Number.Finite h -> maxHealth s = Number.Finite m ->
  0 <= h -> h <= m -> inRange s.
Proof.
  intros Eh Em H0 H1. unfold inRange. rewrite Eh, Em.
  split; now apply Number_le_Finite.
Qed.

(** The health a call stores, computed from finite [health] and
    [maxHealth]. *)
Ltac health_value Eh Em :=
  unfold damage, heal, setHealth, Number.sub; cbn [health maxHealth];
  rewrite ?Eh, ?Em; cbn; unfold Js.max, Js.min;
  repeat match goal with
         | |- context [Qle_bool ?a ?b] => destruct (Qle_bool a b); cbn
         end;
  reflexivity.

Lemma health_step_inRange (o : op) (s : TankHealth.t) :
  argumentOk o -> finiteMax s -> inRange s ->
  inRange (step o s) /\ maxHealth (step o s) = maxHealth s.
Proof.
  intros Hok Hfin Hin.
  destruct (inRange_finite s Hfin Hin) as (h & m & Eh & Em & H0 & H1).
  split; [| destruct o; reflexivity].
  assert (Hgoal : forall x,
            health (step o s) = Number.Finite x -> 0 <= x /\ x <= m ->
            inRange (step o s)).
  { intros x Ex [Hx0 Hx1]. apply (finite_inRange x m); auto.
    destruct o; exact Em. }
  destruct o as [a | a | v]; cbn [step argumentOk] in *;
    [destruct a as [| | | q] | destruct a as [| | | q]
     | destruct v as [| | | q]];
    cbn in Hok; try discriminate.
  - (* damage(Infinity) *)
    apply (Hgoal 0); [health_value Eh Em | lra].
  - (* damage(q) *)
    apply Qle_bool_iff in Hok.
    apply (Hgoal (Js.max 0 (h + - q))); [health_value Eh Em |].
    destruct (Js_max_cases 0 (h + - q)) as [[L E] | [L E]]; rewrite E; lra.
  - (* heal(Infinity) *)
    apply (Hgoal m); [health_value Eh Em | lra].
  - (* heal(q) *)
    apply Qle_bool_iff in Hok.
    apply (Hgoal (Js.min m (h + q))); [health_value Eh Em |].
    destruct (Js_min_cases m (h + q)) as [[L E] | [L E]]; rewrite E; lra.
  - (* setHealth(-Infinity) *)
    apply (Hgoal 0); [health_value Eh Em | lra].
  - (* setHealth(Infinity) *)
    apply (Hgoal (Js.max 0 m)); [health_value Eh Em |].
    destruct (Js_max_cases 0 m) as [[L E] | [L E]]; rewrite E; lra.
  - (* setHealth(q) *)
    apply (Hgoal (Js.max 0 (Js.min m q))); [health_value Eh Em |].
    destruct (Js_min_cases m q) as [[L E] | [L E]]; rewrite E;
      match goal with
      | |- context [Js.max 0 ?x] =>
          destruct (Js_max_cases 0 x) as [[L' E'] | [L' E']]; rewrite E'
      end; lra.
Qed.

Lemma health_run_inRange (ops : list op) :
  forall s : TankHealth.t,
    Forall argumentOk ops -> finiteMax s -> inRange s ->
    inRange (run ops s) /\ maxHealth (run ops s) = maxHealth s.
Proof.
  induction ops as [| o ops IH]; intros s Hall Hfin Hin; [split; auto |].
  apply List.Forall_cons_iff in Hall. destruct Hall as [Ho Hops].
  change (run (o :: ops) s) with (run ops (step o s)).
  destruct (health_step_inRange o s Ho Hfin Hin) as [Hin' Hm'].
  assert (Hfin' : finiteMax (step o s)).
  { destruct Hfin as [m Hm]. exists m. now rewrite Hm'. }
  destruct (IH (step o s) Hops Hfin' Hin') as [A B].
  split; [exact A | now rewrite B].
Qed.

End HealthRange.

(** [C5], as the code has it: [damage] clamps below only, [heal] above
    only, and [Math.max] and [Math.min] hand a NaN on.  On a tank whose
    [maxHealth] is finite and whose health is within [0, maxHealth],
    after every sequence of [damage], [heal] and [setHealth] calls whose
    damage and heal amounts are [>= 0] (which NaN is not, and infinity
    is) and whose [setHealth] arguments are not NaN, the health is within
    [0, maxHealth], [maxHealth] is what it was, and [isDead()] is true
    exactly when the health is 0. *)
Theorem C5_health_stays_in_range (s : TankHealth.t)
    (ops : list TankHealth.op)
    (Hmax : TankHealth.finiteMax s)
    (Hinit : TankHealth.inRange s)
    (Hargs : Forall TankHealth.argumentOk ops) :
  let s' := TankHealth.run ops s in
  Number.le (Number.Finite 0) (TankHealth.health s') = true /\
  Number.le (TankHealth.health s') (TankHealth.maxHealth s') = true /\
  TankHealth.maxHealth s' = TankHealth.maxHealth s /\
  (TankHealth.isDead s' = true <->
   Number.eq (TankHealth.health s') (Number.Finite 0) = true).
Proof.
  intros s'.
  destruct (health_run_inRange ops s Hargs Hmax Hinit) as [[H0 H1] Hm].
  fold s' in H0, H1, Hm.
  split; [exact H0 |]. split; [exact H1 |]. split; [exact Hm |].
  unfold TankHealth.isDead.
  destruct Hmax as [m Em]. rewrite Hm, Em in H1.
  destruct (TankHealth.health s') as [| | | h];
    try discriminate H0; try discriminate H1.
  apply Number_le_Finite in H0.
  rewrite Number_le_Finite.
  change (Number.eq (Number.Finite h) (Number.Finite 0)) with (Qeq_bool h 0).
  rewrite Qeq_bool_iff. split; intros H; lra.
Qed.

Lemma C5_health_stays_in_range_witness :
  let s' :=
    TankHealth.run
      [TankHealth.Damage (Number.Finite 30);
       TankHealth.Heal Number.Infinity;
       TankHealth.SetHealth (Number.Finite 250);
       TankHealth.Damage (Number.Finite 120);
       TankHealth.SetHealth Number.NegInfinity] TankHealth.new in
  Number.le (Number.Finite 0) (TankHealth.health s') = true /\
  Number.le (TankHealth.health s') (TankHealth.maxHealth s') = true /\
  TankHealth.maxHealth s' = TankHealth.maxHealth TankHealth.new /\
  (TankHealth.isDead s' = true <->
   Number.eq (TankHealth.health s') (Number.Finite 0) = true).
Proof.
  apply (C5_health_stays_in_range TankHealth.new).
  - exists 100. reflexivity.
  - split; reflexivity.
  - repeat constructor.
Defined.

(** [C5], as stated, fails on the code.  On a new tank (health 100 of
    100): [damage(-50)] takes the health to 150, above [maxHealth];
    [heal(-200)] takes it to -100, below 0, where [isDead()] is true
    although the health is not 0; and [setHealth(NaN)] stores NaN, which
    is not within any range. *)
Lemma C5_counterexample :
  TankHealth.inRange TankHealth.new /\
  Number.eq
    (TankHealth.health
       (TankHealth.run [TankHealth.Damage (Number.Finite (-50))]
          TankHealth.new))
    (Number.Finite 150) = true /\
  Number.le
    (TankHealth.health
       (TankHealth.run [TankHealth.Damage (Number.Finite (-50))]
          TankHealth.new))
    (TankHealth.maxHealth TankHealth.new) = false /\
  Number.eq
    (TankHealth.health
       (TankHealth.run [TankHealth.Heal (Number.Finite (-200))]
          TankHealth.new))
    (Number.Finite (-100)) = true /\
  Number.le (Number.Finite 0)
    (TankHealth.health
       (TankHealth.run [TankHealth.Heal (Number.Finite (-200))]
          TankHealth.new))
    = false /\
  TankHealth.isDead
    (TankHealth.run [TankHealth.Heal (Number.Finite (-200))] TankHealth.new)
    = true /\
  Number.eq
    (TankHealth.health
       (TankHealth.run [TankHealth.Heal (Number.Finite (-200))]
          TankHealth.new))
    (Number.Finite 0) = false /\
  TankHealth.health
    (TankHealth.run [TankHealth.SetHealth Number.NaN] TankHealth.new)
    = Number.NaN /\
  Number.le (Number.Finite 0)
    (TankHealth.health
       (TankHealth.run [TankHealth.SetHealth Number.NaN] TankHealth.new))
    = false /\
  Number.le
    (TankHealth.health
       (TankHealth.run [TankHealth.SetHealth Number.NaN] TankHealth.new))
    (TankHealth.maxHealth TankHealth.new) = false.
Proof.
  repeat split; reflexivity.
Qed.

(** ** Tank: reloading *)

Section ReloadTimer.

Import Tank64.

(** A tank that is not reloading is left alone by [update]. *)
Lemma Tank64_updates_idle (ds : list float) :
  forall s : Tank64.t, isReloading s = false -> updates ds s = s.
Proof.
  induction ds as [| d ds IH]; intros s H; [reflexivity |].
  cbn [updates fold_left]. unfold update at 2. rewrite H.
  now apply IH.
Qed.

(** While the timer stays below [reloadTime] after every update, the
    tank keeps reloading, with its ammunition untouched and its timer at
    the rounded sum. *)
Lemma Tank64_updates_pending (ds : list float) :
  forall s : Tank64.t,
    isReloading s = true ->
    (forall j, (1 <= j <= length ds)%nat ->
       Double.ge (fold_left PrimFloat.add (firstn j ds) (reloadTimer s))
                 (reloadTime s) = false) ->
    updates ds s =
      {| ammo := ammo s; maxAmmo := maxAmmo s; reloadTime := reloadTime s;
         isReloading := true;
         reloadTimer := fold_left PrimFloat.add ds (reloadTimer s) |}.
Proof.
  induction ds as [| d ds IH]; intros s Hr Hlow.
  - cbn. destruct s; cbn in *. now subst.
  - cbn [updates fold_left].
    assert (H1 : Double.ge (reloadTimer s + d)%float (reloadTime s) = false).
    { apply (Hlow 1%nat). cbn [length]. lia. }
    unfold update at 2. rewrite Hr, H1.
    match goal with
    | |- fold_left _ ds ?s1 = _ => fold (updates ds s1); rewrite (IH s1)
    end.
    + reflexivity.
    + reflexivity.
    + intros j Hj. cbn [reloadTimer reloadTime].
      apply (Hlow (S j)). cbn [length]. lia.
Qed.

Lemma timerAfter_snoc (ds : list float) (d : float) :
  timerAfter (ds ++ [d]) = (timerAfter ds + d)%float.
Proof. unfold timerAfter. now rewrite fold_left_app. Qed.

Lemma firstn_firstn_le {A : Type} (i j : nat) (l : list A) :
  (i <= j)%nat -> firstn i (firstn j l) = firstn i l.
Proof. intros H. rewrite firstn_firstn. now rewrite Nat.min_l. Qed.

Lemma firstn_succ_snoc {A : Type} (k : nat) (l : list A) :
  (k < length l)%nat ->
  exists d, firstn (S k) l = firstn k l ++ [d].
Proof.
  revert l. induction k as [| k IH]; intros [| a l] H; cbn in H; try lia.
  - exists a. reflexivity.
  - destruct (IH l) as [d E]; [lia |]. exists d.
    change (firstn (S (S k)) (a :: l)) with (a :: firstn (S k) l).
    rewrite E. reflexivity.
Qed.

(** The course of a reload from [startReload]: the timer follows the
    rounded sums while they stay below [reloadTime]; update [n], the
    first that takes it to [reloadTime] or above, ends the reload, and
    later updates change nothing. *)
Lemma Tank64_reload_course (s0 : Tank64.t) (deltas : list float) (n : nat) :
  (1 <= n <= length deltas)%nat ->
  (forall j, (1 <= j < n)%nat ->
     Double.ge (timerAfter (firstn j deltas)) (reloadTime s0) = false) ->
  Double.ge (timerAfter (firstn n deltas)) (reloadTime s0) = true ->
  (forall j, (j < n)%nat ->
     updates (firstn j deltas) (startReload s0) =
       {| ammo := ammo s0; maxAmmo := maxAmmo s0; reloadTime := reloadTime s0;
          isReloading := true;
          reloadTimer := timerAfter (firstn j deltas) |}) /\
  (forall j, (n <= j)%nat ->
     updates (firstn j deltas) (startReload s0) =
       {| ammo := maxAmmo s0; maxAmmo := maxAmmo s0;
          reloadTime := reloadTime s0;
          isReloading := false; reloadTimer := 0 |}).
Proof.
  intros Hn Hlow Hreach.
  assert (Hpending : forall j, (j < n)%nat ->
     updates (firstn j deltas) (startReload s0) =
       {| ammo := ammo s0; maxAmmo := maxAmmo s0; reloadTime := reloadTime s0;
          isReloading := true;
          reloadTimer := timerAfter (firstn j deltas) |}).
  { intros j Hj.
    rewrite (Tank64_updates_pending (firstn j deltas) (startReload s0));
      [reflexivity | reflexivity |].
    intros i Hi. rewrite length_firstn in Hi.
    rewrite firstn_firstn_le by lia.
    cbn [startReload reloadTimer reloadTime].
    apply (Hlow i). lia. }
  split; [exact Hpending |].
  intros j Hj.
  destruct n as [| k]; [lia |].
  destruct (firstn_succ_snoc k deltas) as [d Ed]; [lia |].
  assert (Hat : updates (firstn (S k) deltas) (startReload s0) =
     {| ammo := maxAmmo s0; maxAmmo := maxAmmo s0;
        reloadTime := reloadTime s0;
        isReloading := false; reloadTimer := 0 |}).
  { rewrite Ed. unfold updates. rewrite fold_left_app.
    fold (updates (firstn k deltas) (startReload s0)).
    rewrite (Hpending k) by lia.
    cbn [fold_left]. unfold update.
    cbn [isReloading reloadTimer reloadTime maxAmmo].
    rewrite <- timerAfter_snoc, <- Ed, Hreach. reflexivity. }
  rewrite <- (firstn_skipn (S k) (firstn j deltas)).
  rewrite firstn_firstn_le by lia.
  unfold updates. rewrite fold_left_app.
  fold (updates (firstn (S k) deltas) (startReload s0)).
  rewrite Hat.
  match goal with
  | |- fold_left _ ?l ?s1 = _ => fold (updates l s1)
  end.
  now rewrite Tank64_updates_idle.
Qed.

(** Ten frames of 0.2 s leave the timer at 1.9999999999999998: the
    reload of a new tank ends with the eleventh. *)
Example reload_takes_eleven_frames :
  let s := snd (fires 5 new) in
  map (fun k =>
         (isReloading (updates (repeat 0x1.999999999999ap-3%float k) s),
          ammo (updates (repeat 0x1.999999999999ap-3%float k) s)))
      [0; 9; 10; 11; 12]%nat
  = [(true, 0%Z); (true, 0%Z); (true, 0%Z); (false, 5%Z); (false, 5%Z)] /\
  timerAfter (repeat 0x1.999999999999ap-3%float 10)
  = 0x1.fffffffffffffp+0%float.
Proof. split; reflexivity. Qed.

End ReloadTimer.

(** [C6], as the code has it: the timer is a double and every [+=]
    rounds.  A tank that has just entered the reloading state
    ([startReload]) is updated with the frame deltas [deltas]; the timer
    after [j] updates is the deltas added in call order, each sum rounded
    ([timerAfter]).  If update [n] is the first after which the timer is
    greater than or equal to [reloadTime], then before update [n] the
    tank is reloading with the ammunition it had, and from update [n] on
    the ammunition is [maxAmmo], the tank is not reloading and the timer
    is back at 0.  A timer equal to [reloadTime] passes the test. *)
Theorem C6_reload_completes_at_timer (s0 : Tank64.t) (deltas : list float)
    (n : nat)
    (Hn : (1 <= n <= length deltas)%nat)
    (Hbefore : forall j, (1 <= j < n)%nat ->
       Double.ge (Tank64.timerAfter (firstn j deltas))
                 (Tank64.reloadTime s0) = false)
    (Hreach :
       Double.ge (Tank64.timerAfter (firstn n deltas))
                 (Tank64.reloadTime s0) = true) :
  let s := Tank64.startReload s0 in
  Tank64.isReloading s = true /\
  (forall j, (j < n)%nat ->
     Tank64.isReloading (Tank64.updates (firstn j deltas) s) = true /\
     Tank64.ammo (Tank64.updates (firstn j deltas) s) = Tank64.ammo s0 /\
     Tank64.reloadTimer (Tank64.updates (firstn j deltas) s)
       = Tank64.timerAfter (firstn j deltas)) /\
  (forall j, (n <= j)%nat ->
     Tank64.ammo (Tank64.updates (firstn j deltas) s) = Tank64.maxAmmo s0 /\
     Tank64.isReloading (Tank64.updates (firstn j deltas) s) = false /\
     Tank64.reloadTimer (Tank64.updates (firstn j deltas) s) = 0%float) /\
  Tank64.ammo (Tank64.updates deltas s) = Tank64.maxAmmo s0 /\
  Tank64.isReloading (Tank64.updates deltas s) = false /\
  Tank64.reloadTimer (Tank64.updates deltas s) = 0%float /\
  (forall timer : float,
     (timer =? Tank64.reloadTime s0)%float = true ->
     Double.ge timer (Tank64.reloadTime s0) = true).
Proof.
  intros s.
  destruct (Tank64_reload_course s0 deltas n Hn Hbefore Hreach) as [P C].
  split; [reflexivity |].
  split; [intros j Hj; unfold s; rewrite (P j Hj); repeat split |].
  split; [intros j Hj; unfold s; rewrite (C j Hj); repeat split |].
  rewrite <- (firstn_all deltas). unfold s.
  rewrite (C (length deltas)) by lia.
  repeat split. intros timer. apply Double_eq_ge.
Qed.

Lemma C6_reload_completes_at_timer_witness :
  let deltas := repeat 0x1.999999999999ap-3%float 11 in
  let s := Tank64.startReload (snd (Tank64.fires 5 Tank64.new)) in
  Tank64.isReloading s = true /\
  (forall j, (j < 11)%nat ->
     Tank64.isReloading (Tank64.updates (firstn j deltas) s) = true /\
     Tank64.ammo (Tank64.updates (firstn j deltas) s) = 0%Z /\
     Tank64.reloadTimer (Tank64.updates (firstn j deltas) s)
       = Tank64.timerAfter (firstn j deltas)) /\
  (forall j, (11 <= j)%nat ->
     Tank64.ammo (Tank64.updates (firstn j deltas) s) = 5%Z /\
     Tank64.isReloading (Tank64.updates (firstn j deltas) s) = false /\
     Tank64.reloadTimer (Tank64.updates (firstn j deltas) s) = 0%float) /\
  Tank64.ammo (Tank64.updates deltas s) = 5%Z /\
  Tank64.isReloading (Tank64.updates deltas s) = false /\
  Tank64.reloadTimer (Tank64.updates deltas s) = 0%float /\
  (forall timer : float,
     (timer =? 2)%float = true -> Double.ge timer 2 = true).
Proof.
  apply (C6_reload_completes_at_timer (snd (Tank64.fires 5 Tank64.new))
           (repeat 0x1.999999999999ap-3%float 11) 11).
  - cbn. lia.
  - intros j Hj.
    do 11 (destruct j as [| j]; [try lia; reflexivity |]). lia.
  - reflexivity.
Defined.

(** [C6], as stated, fails on the code, both ways.  A new tank that has
    fired its five rounds is reloading with its timer at 0 and
    [reloadTime] 2.  The deltas [1, 2^-53, 2^-53, 1 - 2^-52] are not
    negative and add up to exactly 2, yet after these updates the tank is
    still reloading with no ammunition: the timer has reached
    1.9999999999999998 only.  And the deltas [2^-54, 1, 1 - 2^-53] add up
    to less than 2, yet after them the ammunition is restored: the timer
    was rounded up to 2. *)
Lemma C6_counterexample :
  let s := snd (Tank64.fires 5 Tank64.new) in
  let deltas := [1; 0x1p-53; 0x1p-53; 0x1.ffffffffffffep-1]%float in
  let early := [0x1p-54; 1; 0x1.fffffffffffffp-1]%float in
  Tank64.isReloading s = true /\
  Tank64.reloadTimer s = 0%float /\
  Double.value (Tank64.reloadTime s) == 2 /\
  forallb Double.isFinite deltas = true /\
  Forall (fun d => 0 <= Double.value d) deltas /\
  Double.sum deltas == 2 /\
  Tank64.timerAfter deltas = 0x1.fffffffffffffp+0%float /\
  Tank64.isReloading (Tank64.updates deltas s) = true /\
  Tank64.ammo (Tank64.updates deltas s) = 0%Z /\
  forallb Double.isFinite early = true /\
  Forall (fun d => 0 <= Double.value d) early /\
  Double.sum early < 2 /\
  Tank64.isReloading (Tank64.updates early s) = false /\
  Tank64.ammo (Tank64.updates early s) = 5%Z.
Proof.
  cbv zeta.
  repeat match goal with |- _ /\ _ => split end;
    try reflexivity; try (repeat constructor; vm_compute; discriminate).
  all: vm_compute; reflexivity.
Qed.

(** ** Projectile: expiry *)

Section ProjectileAge.

Import Projectile64.

Lemma Projectile64_updates_age (ds : list float) :
  forall p : Projectile64.t,
    age (updates ds p) = fold_left PrimFloat.add ds (age p) /\
    lifeTime (updates ds p) = lifeTime p.
Proof.
  induction ds as [| d ds IH]; intros p; [split; reflexivity |].
  cbn [updates fold_left].
  destruct (IH (update d p)) as [A L]. split; assumption.
Qed.

(** Half-second frames: the projectile expires with the tenth. *)
Example expired_after_frames :
  map (fun k => isExpired (updates (repeat 0.5%float k) new))
      [0; 9; 10; 11]%nat
  = [false; false; true; true].
Proof. reflexivity. Qed.

End ProjectileAge.

(** [C7], as the code has it: the age is a double and every [+=] rounds.
    For every projectile and every sequence of [update(delta)] calls, the
    age is the deltas added to the age it had, in call order, each sum
    rounded; the lifetime does not change; and [isExpired()] is true
    exactly when that age is greater than or equal to the lifetime: it is
    false while the age is below the lifetime, and when it is false the
    age is below the lifetime or is NaN.  A newly built projectile has
    lifetime 5 and age 0: it is not expired at age 4.999 and expired at
    age 5. *)
Theorem C7_isExpired_iff_accumulated_age (p : Projectile64.t)
    (deltas : list float) :
  let p' := Projectile64.updates deltas p in
  Projectile64.age p' = fold_left PrimFloat.add deltas (Projectile64.age p) /\
  Projectile64.lifeTime p' = Projectile64.lifeTime p /\
  (Projectile64.isExpired p' = true <->
   (Projectile64.lifeTime p <=? Projectile64.age p')%float = true) /\
  ((Projectile64.age p' <? Projectile64.lifeTime p)%float = true ->
   Projectile64.isExpired p' = false) /\
  (Projectile64.isExpired p' = false ->
   (Projectile64.age p' <? Projectile64.lifeTime p)%float = true \/
   Double.isNaN (Projectile64.age p') = true \/
   Double.isNaN (Projectile64.lifeTime p) = true) /\
  Projectile64.isExpired (Projectile64.updates deltas Projectile64.new)
    = (5 <=? Projectile64.accumulated deltas)%float /\
  Projectile64.isExpired
    (Projectile64.updates [0x1.3fef9db22d0e5p+2%float] Projectile64.new)
    = false /\
  Projectile64.isExpired (Projectile64.updates [5%float] Projectile64.new)
    = true.
Proof.
  intros p'. destruct (Projectile64_updates_age deltas p) as [A L].
  fold p' in A, L.
  split; [exact A |]. split; [exact L |].
  unfold Projectile64.isExpired. rewrite L.
  split; [unfold Double.ge; tauto |].
  split; [apply Double_lt_not_ge |].
  split; [apply Double_not_ge |].
  split; [| split; reflexivity].
  destruct (Projectile64_updates_age deltas Projectile64.new) as [A' L'].
  unfold Projectile64.accumulated, Double.ge. rewrite A', L'. reflexivity.
Qed.

(** [C7], as stated, fails on the code.  After fifty [update(0.1)] calls
    on a new projectile the deltas add up to more than 5 (the double
    nearest 0.1 is a little above it), but the age the code has
    accumulated is 4.999999999999998 and [isExpired()] is false. *)
Lemma C7_counterexample :
  let deltas := repeat 0x1.999999999999ap-4%float 50 in
  let p := Projectile64.updates deltas Projectile64.new in
  forallb Double.isFinite deltas = true /\
  5 <= Double.sum deltas /\
  Projectile64.age p = 0x1.3fffffffffffep+2%float /\
  Double.value (Projectile64.age p) < 5 /\
  Projectile64.isExpired p = false.
Proof.
  cbv zeta. repeat split; try reflexivity.
  vm_compute. discriminate.
Qed.

(** ** Terrain: the height grid *)

Section TerrainGrid.

Import Terrain.

Lemma nth_error_map_seq {A : Type} (f : nat -> A) (n : nat) :
  forall a i : nat,
    (i < n)%nat -> nth_error (map f (seq a n)) i = Some (f (a + i)%nat).
Proof.
  induction n as [| n IH]; intros a i Hi; [lia |].
  destruct i as [| i]; cbn [seq map nth_error].
  - now rewrite Nat.add_0_r.
  - rewrite IH by lia. f_equal. f_equal. lia.
Qed.

Lemma nth_error_map_seq_out {A : Type} (f : nat -> A) (n a i : nat) :
  (n <= i)%nat -> nth_error (map f (seq a n)) i = None.
Proof.
  intros Hi. apply nth_error_None. now rewrite length_map, length_seq.
Qed.

Variable noise2D : Q -> Q -> Q.

(** The generated grid holds the sample of node [(i, j)] at
    [heightData[i][j]], for [i] and [j] from 0 to [resolution]. *)
Lemma at_generated (s : Terrain.t) (i j : nat) :
  (i <= resolution s)%nat -> (j <= resolution s)%nat ->
  at_ (heightData (generateHeightData noise2D s)) i j
  = Some (sampleHeight noise2D (resolution s) (maxHeight s) i j).
Proof.
  intros Hi Hj. unfold at_, generateHeightData. cbn [heightData].
  rewrite nth_error_map_seq by lia.
  rewrite nth_error_map_seq by lia. reflexivity.
Qed.

Lemma at_generated_inv (s : Terrain.t) (i j : nat) (h : Q) :
  at_ (heightData (generateHeightData noise2D s)) i j = Some h ->
  (i <= resolution s)%nat /\ (j <= resolution s)%nat /\
  h = sampleHeight noise2D (resolution s) (maxHeight s) i j.
Proof.
  intros H.
  destruct (Nat.le_gt_cases i (resolution s)) as [Hi | Hi].
  - destruct (Nat.le_gt_cases j (resolution s)) as [Hj | Hj].
    + rewrite at_generated in H by assumption.
      injection H as <-. auto.
    + unfold at_, generateHeightData in H. cbn [heightData] in H.
      rewrite nth_error_map_seq in H by lia.
      rewrite nth_error_map_seq_out in H by lia. discriminate.
  - unfold at_, generateHeightData in H. cbn [heightData] in H.
    rewrite nth_error_map_seq_out in H by lia. discriminate.
Qed.

Lemma generated_wellFormed (s : Terrain.t) :
  wellFormed (generateHeightData noise2D s).
Proof.
  unfold wellFormed, generateHeightData. cbn [heightData resolution].
  split.
  - now rewrite length_map, length_seq.
  - apply List.Forall_forall. intros row Hrow.
    apply in_map_iff in Hrow. destruct Hrow as (i & <- & _).
    now rewrite length_map, length_seq.
Qed.

(** The floor clamp: no sample is below [0.3 * maxHeight]. *)
Lemma sampleHeight_floor (resolution : nat) (maxHeight : Q) (i j : nat) :
  maxHeight * (3 # 10) <= sampleHeight noise2D resolution maxHeight i j.
Proof.
  unfold sampleHeight.
  match goal with
  | |- context [Js.lt ?a ?b] => destruct (Js.lt a b) eqn:E
  end.
  - lra.
  - now apply Js_lt_false in E.
Qed.

(** Where the six octaves add up to more than 1, the sample is above
    [maxHeight]: the remapping [(height + 1) / 2] only brings [-1, 1]
    into [0, 1]. *)
Lemma sampleHeight_above (resolution : nat) (maxHeight : Q) (i j : nat) :
  0 < maxHeight ->
  1 < octaveLoop noise2D octaves
        (num i / num resolution) (num j / num resolution) 0 1 1 ->
  maxHeight < sampleHeight noise2D resolution maxHeight i j.
Proof.
  intros Hm Hsum. unfold sampleHeight.
  set (S := octaveLoop noise2D octaves _ _ 0 1 1) in *.
  assert (Hgt : maxHeight < (S + 1) / 2 * maxHeight).
  { assert (H1 : 1 < (S + 1) / 2) by (apply Qlt_shift_div_l; lra).
    set (X := (S + 1) / 2) in *.
    assert (P : 0 < (X - 1) * maxHeight)
      by (apply Qmult_lt_0_compat; lra).
    assert (R : (X - 1) * maxHeight == X * maxHeight - maxHeight) by ring.
    lra. }
  destruct (Js.lt _ _) eqn:E; [| exact Hgt].
  apply Js_lt_true in E. lra.
Qed.

End TerrainGrid.

(** [C1] On the scenario terrain (size 1000, resolution 128, maxHeight
    50) every sample respects the floor of 15, whatever the noise.  The
    upper bound fails: with a noise primitive that stays within [-1, 1],
    the sample at node (64, 64) of the generated grid is 61.9140625, above
    [maxHeight] = 50.  Six octaves of amplitudes 1, 1/2, ..., 1/32 add up
    to as much as 1.96875 in absolute value, and [(height + 1) / 2] maps
    only [-1, 1] into [0, 1]. *)
Theorem C1_sample_above_maxHeight :
  (forall (noise2D : Q -> Q -> Q) (i j : nat),
     15 <= Terrain.sampleHeight noise2D 128 50 i j) /\
  (forall x z : Q,
     -1 <= Terrain.plateauNoise x z /\ Terrain.plateauNoise x z <= 1) /\
  Terrain.at_
    (Terrain.heightData
       (Terrain.generateHeightData Terrain.plateauNoise Terrain.scenario))
    64 64
  = Some (Terrain.sampleHeight Terrain.plateauNoise 128 50 64 64) /\
  Terrain.sampleHeight Terrain.plateauNoise 128 50 64 64 == 7925 # 128 /\
  50 < Terrain.sampleHeight Terrain.plateauNoise 128 50 64 64.
Proof.
  split; [| split; [| split; [| split]]].
  - intros noise2D i j.
    pose proof (sampleHeight_floor noise2D 128 50 i j) as H. lra.
  - intros x z. unfold Terrain.plateauNoise. split; lra.
  - apply (at_generated Terrain.plateauNoise Terrain.scenario 64 64);
      cbn; lia.
  - vm_compute. reflexivity.
  - vm_compute. reflexivity.
Qed.

(** ** Terrain: the visual and the collision surface *)

Section TerrainSurfaces.

Import Terrain.

Lemma createTerrainGeometry_length (s : Terrain.t) :
  length (createTerrainGeometry s)
  = ((resolution s + 1) * (resolution s + 1))%nat.
Proof. unfold createTerrainGeometry. now rewrite length_map, length_seq. Qed.

(** The vertex of row [i] and column [j] carries [heightData[i][j]],
    for [i] and [j] from 0 to [resolution]. *)
Lemma createTerrainGeometry_at (s : Terrain.t) (i j : nat) :
  (i <= resolution s)%nat -> (j <= resolution s)%nat ->
  nth_error (createTerrainGeometry s) (i * (resolution s + 1) + j)
  = Some (at_ (heightData s) i j).
Proof.
  intros Hi Hj. unfold createTerrainGeometry.
  set (n := (resolution s + 1)%nat).
  assert (Hn : (i * n + j < n * n)%nat) by (unfold n; nia).
  rewrite nth_error_map_seq by exact Hn.
  cbn [Nat.add].
  assert (Hd : ((i * n + j) / n = i)%nat).
  { symmetry. apply (Nat.div_unique _ n i j); [unfold n; lia | lia]. }
  assert (Hm : ((i * n + j) mod n = j)%nat).
  { symmetry. apply (Nat.mod_unique _ n i j); [unfold n; lia | lia]. }
  now rewrite Hd, Hm.
Qed.

Lemma physicsData_length (s : Terrain.t) :
  length (physicsData s) = resolution s /\
  Forall (fun row => length row = resolution s) (physicsData s).
Proof.
  unfold physicsData. split.
  - now rewrite length_map, length_seq.
  - apply List.Forall_forall. intros row Hrow.
    apply in_map_iff in Hrow. destruct Hrow as (i & <- & _).
    now rewrite length_map, length_seq.
Qed.

(** The height-field holds [heightData[i][j]] for [i] and [j] from 0
    to [resolution - 1] and nothing else. *)
Lemma physicsAt_inside (s : Terrain.t) (i j : nat) :
  (i < resolution s)%nat -> (j < resolution s)%nat ->
  physicsAt s i j = Some (at_ (heightData s) i j).
Proof.
  intros Hi Hj. unfold physicsAt, physicsData.
  rewrite nth_error_map_seq by exact Hi.
  rewrite nth_error_map_seq by exact Hj. reflexivity.
Qed.

Lemma physicsAt_outside (s : Terrain.t) (i j : nat) :
  (resolution s <= i)%nat \/ (resolution s <= j)%nat ->
  physicsAt s i j = None.
Proof.
  intros H. unfold physicsAt, physicsData.
  destruct (Nat.lt_ge_cases i (resolution s)) as [Hi | Hi].
  - rewrite nth_error_map_seq by exact Hi.
    apply nth_error_map_seq_out. lia.
  - now rewrite nth_error_map_seq_out by exact Hi.
Qed.

Lemma physicsExtent_eq (s : Terrain.t) :
  physicsExtent s = (num (resolution s) - 1) * elementSize s.
Proof.
  unfold physicsExtent. now rewrite (proj1 (physicsData_length s)).
Qed.

End TerrainSurfaces.

(** [C2] On the scenario terrain (size 1000, resolution 128), whatever
    the noise: the visual surface takes all 129 x 129 samples of the grid,
    the one at [heightData[128][128]] included, while the height-field of
    the collision body holds 128 x 128 of them: row 128 and column 128 of
    the grid are not in it.  The body is placed at the corner
    [(-size/2, 0, -size/2)] of the visual surface, and with samples
    [size / resolution] apart the height-field spans 992.1875 of the 1000
    units the visual surface covers. *)
Theorem C2_collision_grid_drops_last_row_and_column
    (noise2D : Q -> Q -> Q) :
  let g := Terrain.generateHeightData noise2D Terrain.scenario in
  length (Terrain.createTerrainGeometry g) = (129 * 129)%nat /\
  nth_error (Terrain.createTerrainGeometry g) (128 * 129 + 128)
  = Some (Some (Terrain.sampleHeight noise2D 128 50 128 128)) /\
  length (Terrain.physicsData g) = 128%nat /\
  Forall (fun row => length row = 128%nat) (Terrain.physicsData g) /\
  Terrain.physicsAt g 127 127
  = Some (Some (Terrain.sampleHeight noise2D 128 50 127 127)) /\
  Terrain.physicsAt g 128 128 = None /\
  Terrain.physicsAt g 128 0 = None /\
  Terrain.physicsAt g 0 128 = None /\
  Cannon.position (Terrain.createPhysicsBody g)
  = mkVec3 (- 1000 / 2) 0 (- 1000 / 2) /\
  Terrain.visualMin g == - 1000 / 2 /\
  Terrain.visualExtent g == 1000 /\
  Terrain.physicsExtent g == 9921875 # 10000.
Proof.
  intros g.
  assert (Hres : Terrain.resolution g = 128%nat) by reflexivity.
  split; [rewrite createTerrainGeometry_length, Hres; reflexivity |].
  split.
  { change (128 * 129 + 128)%nat
      with (128 * (Terrain.resolution g + 1) + 128)%nat.
    rewrite createTerrainGeometry_at by (rewrite Hres; lia).
    unfold g. rewrite at_generated by (cbn; lia). reflexivity. }
  split; [exact (proj1 (physicsData_length g)) |].
  split; [exact (proj2 (physicsData_length g)) |].
  split.
  { rewrite physicsAt_inside by (rewrite Hres; lia).
    unfold g. rewrite at_generated by (cbn; lia). reflexivity. }
  split; [apply physicsAt_outside; rewrite Hres; lia |].
  split; [apply physicsAt_outside; rewrite Hres; lia |].
  split; [apply physicsAt_outside; rewrite Hres; lia |].
  split; [reflexivity |].
  split; [vm_compute; reflexivity |].
  split; [reflexivity |].
  rewrite physicsExtent_eq. vm_compute. reflexivity.
Qed.

(** ** Terrain: height queries *)

Section HeightQuery.

Import Terrain64.

(** The two clamps of [getHeightAt] bring every index that is not NaN
    into [0 .. resolution]. *)
Lemma Terrain64_clamp_spec (res : nat) (v : Double.integer) :
  v <> Double.NaN ->
  max 0 (min (num res) v) = Double.Int (clamped res v) /\
  (0 <= clamped res v <= num res)%Z.
Proof.
  intros Hv. destruct v as [| | | k]; cbn; unfold num; try congruence.
  - split; [f_equal; lia | lia].
  - split; [f_equal; lia | lia].
  - destruct (Z.ltb_spec k 0); [| destruct (Z.ltb_spec (Z.of_nat res) k)];
      split; try (f_equal; lia); lia.
Qed.

Lemma Terrain64_element_inside {A : Type} (l : list A) (k : Z) :
  (0 <= k < Z.of_nat (length l))%Z ->
  exists a, element l (Double.Int k) = Some a.
Proof.
  intros H. cbn. destruct (k <? 0)%Z eqn:E; [lia |].
  destruct (nth_error l (Z.to_nat k)) as [a |] eqn:N; [now exists a |].
  apply nth_error_None in N. lia.
Qed.

Lemma ramp_wellFormed (sz : float) (res : nat) :
  wellFormed (ramp sz res).
Proof.
  unfold wellFormed, ramp. cbn [heightData resolution]. split.
  - now rewrite length_map, length_seq.
  - intros row H. apply in_map_iff in H. destruct H as (i & <- & _).
    apply repeat_length.
Qed.

(** On the terrain of the scenario a query at the centre reads node
    (64, 64), and one far outside reads the border. *)
Example query_indices :
  map (fun x => max 0 (min 128 (Double.floor (indexExpr (ramp 1000 128) x))))
      [0; 7; -500; -2000; 500; 3000]%float
  = map Double.Int [64; 64; 0; 0; 128; 128]%Z.
Proof. reflexivity. Qed.

End HeightQuery.

(** [C3], as the code has it: the index is the floor of an expression
    that is evaluated in binary64, every operation rounded, and nothing
    guards against NaN.  On a terrain with a full
    [(resolution + 1) x (resolution + 1)] grid, for all coordinates
    [(x, z)] for which [(coord + size/2) / size * resolution], so
    evaluated, is not NaN on either axis: [getHeightAt(x, z)] returns the
    grid value at the floor of the evaluated expression of each axis,
    clamped to [0, resolution]; the terrain is the same after the call,
    and a second call with the same arguments returns the same value. *)
Theorem C3_getHeightAt_computed_index (s : Terrain64.t) (x z : float)
    (Hgrid : Terrain64.wellFormed s)
    (Hx : Double.floor
            ((x + Terrain64.size s / 2) / Terrain64.size s
             * Double.ofNat (Terrain64.resolution s))%float
          <> Double.NaN)
    (Hz : Double.floor
            ((z + Terrain64.size s / 2) / Terrain64.size s
             * Double.ofNat (Terrain64.resolution s))%float
          <> Double.NaN) :
  let i :=
    Double.floor
      ((x + Terrain64.size s / 2) / Terrain64.size s
       * Double.ofNat (Terrain64.resolution s))%float in
  let j :=
    Double.floor
      ((z + Terrain64.size s / 2) / Terrain64.size s
       * Double.ofNat (Terrain64.resolution s))%float in
  let ci := Terrain64.clamped (Terrain64.resolution s) i in
  let cj := Terrain64.clamped (Terrain64.resolution s) j in
  (0 <= ci <= Z.of_nat (Terrain64.resolution s))%Z /\
  (0 <= cj <= Z.of_nat (Terrain64.resolution s))%Z /\
  (exists h,
     Terrain64.at_ s ci cj = Some h /\
     fst (Terrain64.getHeightAt x z s) = Terrain64.Returns (Some h)) /\
  snd (Terrain64.getHeightAt x z s) = s /\
  fst (Terrain64.getHeightAt x z (snd (Terrain64.getHeightAt x z s)))
    = fst (Terrain64.getHeightAt x z s).
Proof.
  intros i j ci cj.
  change (Double.floor (Terrain64.indexExpr s x) <> Double.NaN) in Hx.
  change (Double.floor (Terrain64.indexExpr s z) <> Double.NaN) in Hz.
  destruct (Terrain64_clamp_spec (Terrain64.resolution s) _ Hx) as [Ei Ri].
  destruct (Terrain64_clamp_spec (Terrain64.resolution s) _ Hz) as [Ej Rj].
  change (Double.floor (Terrain64.indexExpr s x)) with i in Ei, Ri.
  change (Double.floor (Terrain64.indexExpr s z)) with j in Ej, Rj.
  fold ci in Ei, Ri. fold cj in Ej, Rj. unfold Terrain64.num in Ri, Rj.
  destruct Hgrid as [Hrows Hcols].
  destruct (Terrain64_element_inside (Terrain64.heightData s) ci)
    as [row Hrow]; [rewrite Hrows; lia |].
  assert (Hin : In row (Terrain64.heightData s)).
  { cbn in Hrow. destruct (ci <? 0)%Z; [discriminate |].
    eapply nth_error_In; eauto. }
  destruct (Terrain64_element_inside row cj) as [h Hh];
    [rewrite (Hcols row Hin); lia |].
  assert (Hget :
    Terrain64.getHeightAt x z s = (Terrain64.Returns (Some h), s)).
  { unfold Terrain64.getHeightAt. cbv zeta.
    change (Double.floor (Terrain64.indexExpr s x)) with i.
    change (Double.floor (Terrain64.indexExpr s z)) with j.
    rewrite Ei, Ej, Hrow, Hh. reflexivity. }
  split; [exact Ri |]. split; [exact Rj |].
  split;
    [exists h; split;
       [unfold Terrain64.at_; now rewrite Hrow | now rewrite Hget] |].
  rewrite Hget. cbn [fst snd]. split; [reflexivity | now rewrite Hget].
Qed.

Lemma C3_getHeightAt_computed_index_witness :
  let s := Terrain64.ramp 1000 100 in
  let x := (-210)%float in
  let z := 3000%float in
  let i := Double.floor ((x + 1000 / 2) / 1000 * 100)%float in
  let j := Double.floor ((z + 1000 / 2) / 1000 * 100)%float in
  let ci := Terrain64.clamped 100 i in
  let cj := Terrain64.clamped 100 j in
  (0 <= ci <= 100)%Z /\
  (0 <= cj <= 100)%Z /\
  (exists h,
     Terrain64.at_ s ci cj = Some h /\
     fst (Terrain64.getHeightAt x z s) = Terrain64.Returns (Some h)) /\
  snd (Terrain64.getHeightAt x z s) = s /\
  fst (Terrain64.getHeightAt x z (snd (Terrain64.getHeightAt x z s)))
    = fst (Terrain64.getHeightAt x z s).
Proof.
  apply (C3_getHeightAt_computed_index (Terrain64.ramp 1000 100)
           (-210)%float 3000%float).
  - apply ramp_wellFormed.
  - vm_compute. discriminate.
  - vm_compute. discriminate.
Defined.

(** [C3], as stated, fails on the code.  On a terrain of size 1000 and
    resolution 100 whose row [i] holds the height [i], at [x = -210]:
    [(x + size/2) / size * resolution] is exactly 29, which names row 29;
    the code evaluates it to 28.999999999999996 and returns the sample of
    row 28.  And with a NaN coordinate the index is NaN,
    [heightData[NaN]] is [undefined], and the call throws. *)
Lemma C3_counterexample :
  let s := Terrain64.ramp 1000 100 in
  Terrain64.wellFormed s /\
  Double.value (Terrain64.size s) == 1000 /\
  Double.value (-210)%float == -210 /\
  Qfloor ((-210 + 1000 / 2) / 1000 * 100) = 29%Z /\
  Terrain64.indexExpr s (-210)%float = 0x1.cffffffffffffp+4%float /\
  Terrain64.at_ s 29 50 = Some 29%float /\
  Terrain64.at_ s 28 50 = Some 28%float /\
  fst (Terrain64.getHeightAt (-210)%float 0%float s)
    = Terrain64.Returns (Some 28%float) /\
  fst (Terrain64.getHeightAt nan 0%float s) = Terrain64.Throws.
Proof.
  cbv zeta. split; [apply ramp_wellFormed |].
  repeat split; vm_compute; reflexivity.
Qed.

(** ** CollisionManager: classification of contacts *)

Section Classification.

Import Cannon CollisionManager.

Lemma roleOfTag_Some (s : string) (r : Role) :
  roleOfTag s = Some r ->
  match r with
  | tank => s = "tank"%string
  | projectile => s = "projectile"%string
  | ground => s = "ground"%string
  | obstacle => s = "obstacle"%string
  end.
Proof.
  unfold roleOfTag.
  destruct (String.eqb_spec s "tank");
    [intros [= <-]; assumption |].
  destruct (String.eqb_spec s "projectile");
    [intros [= <-]; assumption |].
  destruct (String.eqb_spec s "ground");
    [intros [= <-]; assumption |].
  destruct (String.eqb_spec s "obstacle");
    [intros [= <-]; assumption |].
  discriminate.
Qed.

Lemma roleOf_Some (b : Body) (r : Role) :
  roleOf b = Some r ->
  typeOf b =
    Some match r with
         | tank => "tank"%string
         | projectile => "projectile"%string
         | ground => "ground"%string
         | obstacle => "obstacle"%string
         end.
Proof.
  unfold roleOf. destruct (typeOf b) as [s |]; [| discriminate].
  intros H. apply roleOfTag_Some in H. destruct r; now subst.
Qed.

(** A body without a known role tag matches none of the four tags. *)
Lemma roleOf_None (b : Body) :
  roleOf b = None ->
  hasType b "tank" = false /\ hasType b "projectile" = false /\
  hasType b "ground" = false /\ hasType b "obstacle" = false.
Proof.
  unfold roleOf, hasType, roleOfTag.
  destruct (typeOf b) as [s |]; [| auto].
  destruct (String.eqb s "tank"); [discriminate |].
  destruct (String.eqb s "projectile"); [discriminate |].
  destruct (String.eqb s "ground"); [discriminate |].
  destruct (String.eqb s "obstacle"); [discriminate |].
  auto.
Qed.

Lemma beginContact_no_role_l (a b : Body) :
  roleOf a = None -> beginContact (Some a) (Some b) = [].
Proof.
  intros H. destruct (roleOf_None a H) as (T & P & G & O).
  unfold beginContact, pairIs. rewrite T, P, G, O.
  cbn [andb orb]. rewrite ?andb_false_r. reflexivity.
Qed.

Lemma beginContact_no_role_r (a b : Body) :
  roleOf b = None -> beginContact (Some a) (Some b) = [].
Proof.
  intros H. destruct (roleOf_None b H) as (T & P & G & O).
  unfold beginContact, pairIs. rewrite T, P, G, O.
  cbn [andb orb]. rewrite ?andb_false_r. reflexivity.
Qed.

(** Two bodies with known roles: the contact is classified as the
    specification's table says, in both orders. *)
Lemma beginContact_roles (a b : Body) (ra rb : Role) :
  roleOf a = Some ra -> roleOf b = Some rb ->
  beginContact (Some a) (Some b) = option_list (eventOf ra rb a b) /\
  beginContact (Some b) (Some a) = option_list (eventOf ra rb a b).
Proof.
  intros Ha Hb.
  apply roleOf_Some in Ha. apply roleOf_Some in Hb.
  unfold beginContact, pairIs, pick, hasType.
  destruct ra, rb; rewrite Ha, Hb; split; reflexivity.
Qed.

Lemma eventOf_known (a b : Body) (ra rb : Role) :
  knownPair ra rb = true ->
  exists e, eventOf ra rb a b = Some e /\ isEventFor ra rb e = true.
Proof.
  destruct ra, rb; intros H; try discriminate H;
    eexists; split; reflexivity.
Qed.

(** A shell of alice's hitting bob's tank, reported in either order. *)
Example shell_hits_tank :
  let shell :=
    Projectile.createPhysicsBody
      (Projectile.new "shell" (mkVec3 1 2 3) (mkVec3 0 0 1) 50 35 "alice") in
  let bob := Tank.createPhysicsBody "tank_bob" (mkVec3 4 5 6) zero in
  beginContact (Some bob) (Some shell)
  = [projectileHitTank (Some "shell"%string) (Some "tank_bob"%string)
       (Some "alice"%string) 35 (mkVec3 1 2 3)] /\
  beginContact (Some shell) (Some bob)
  = beginContact (Some bob) (Some shell) /\
  beginContact (Some bob) (Some bob) = [].
Proof. repeat split; reflexivity. Qed.

End Classification.

(** [C8] For two contacting bodies whose role tags form one of the five
    known unordered pairs, the listener emits exactly one event, of the
    kind of that pair, and the same event for the contact reported as
    (A, B) and as (B, A).  When a body has no role tag or an unknown one,
    or a body is missing, nothing is emitted (the listener returns
    normally with an empty result). *)
Theorem C8_classifier_symmetric (a b : Cannon.Body) :
  (forall ra rb,
     CollisionManager.roleOf a = Some ra ->
     CollisionManager.roleOf b = Some rb ->
     CollisionManager.knownPair ra rb = true ->
     exists e,
       CollisionManager.beginContact (Some a) (Some b) = [e] /\
       CollisionManager.beginContact (Some b) (Some a) = [e] /\
       CollisionManager.eventOf ra rb a b = Some e /\
       CollisionManager.isEventFor ra rb e = true) /\
  (CollisionManager.roleOf a = None \/ CollisionManager.roleOf b = None ->
   CollisionManager.beginContact (Some a) (Some b) = [] /\
   CollisionManager.beginContact (Some b) (Some a) = []) /\
  CollisionManager.beginContact None (Some b) = [] /\
  CollisionManager.beginContact (Some a) None = [] /\
  CollisionManager.beginContact None None = [].
Proof.
  split; [| split; [| repeat split]].
  - intros ra rb Ha Hb Hk.
    destruct (beginContact_roles a b ra rb Ha Hb) as [Hab Hba].
    destruct (eventOf_known a b ra rb Hk) as (e & He & Hkind).
    exists e. rewrite Hab, Hba, He. auto.
  - intros [H | H]; split;
      auto using beginContact_no_role_l, beginContact_no_role_r.
Qed.

Lemma C8_classifier_symmetric_witness :
  let p :=
    Projectile.createPhysicsBody
      (Projectile.new "shell" (mkVec3 1 2 3) (mkVec3 0 0 1) 50 35 "alice") in
  let t := Tank.createPhysicsBody "tank_bob" (mkVec3 4 5 6) Cannon.zero in
  exists e,
    CollisionManager.beginContact (Some t) (Some p) = [e] /\
    CollisionManager.beginContact (Some p) (Some t) = [e] /\
    CollisionManager.eventOf CollisionManager.tank
      CollisionManager.projectile t p = Some e /\
    CollisionManager.isEventFor CollisionManager.tank
      CollisionManager.projectile e = true.
Proof.
  refine (proj1
    (C8_classifier_symmetric
       (Tank.createPhysicsBody "tank_bob" (mkVec3 4 5 6) Cannon.zero)
       (Projectile.createPhysicsBody
          (Projectile.new "shell" (mkVec3 1 2 3) (mkVec3 0 0 1) 50 35
             "alice")))
    CollisionManager.tank CollisionManager.projectile _ _ _);
    reflexivity.
Defined.

(** ** WorldObject: bodies without a role tag *)

Section WorldObjectBodies.

Import Cannon CollisionManager.

Lemma worldObject_userData (rnd : Q * Q * Q) (w : WorldObject.t) :
  userData (WorldObject.createPhysicsBody rnd w) = None.
Proof.
  unfold WorldObject.createPhysicsBody.
  destruct rnd as [[r1 r2] r3].
  destruct (String.eqb (WorldObject.type w) "tree"); [reflexivity |].
  destruct (String.eqb (WorldObject.type w) "rock"); [reflexivity |].
  destruct (String.eqb (WorldObject.type w) "building"); reflexivity.
Qed.

Lemma worldObject_roleOf (rnd : Q * Q * Q) (w : WorldObject.t) :
  roleOf (WorldObject.createPhysicsBody rnd w) = None.
Proof.
  unfold roleOf, typeOf. now rewrite worldObject_userData.
Qed.

(** A tree in the path of a shell: the contact is not classified. *)
Example shell_hits_tree :
  beginContact
    (Some (Projectile.createPhysicsBody
             (Projectile.new "shell" (mkVec3 1 2 3) (mkVec3 0 0 1) 50 35
                "alice")))
    (Some (WorldObject.createPhysicsBody (0, 0, 0)
             {| WorldObject.type := "tree";
                WorldObject.position := mkVec3 1 2 4;
                WorldObject.scale := mkVec3 1 1 1;
                WorldObject.rotation := zero;
                WorldObject.id := "tree_1" |}))
  = [].
Proof. reflexivity. Qed.

End WorldObjectBodies.

(** [C10] The body [WorldObject.createPhysicsBody] builds has no
    [userData], whatever the type of the object; so for a contact of such
    a body with any other body, in either order, the listener emits no
    [projectileHitObstacle] and no [tankHitObstacle] event: it emits
    nothing at all. *)
Theorem C10_worldObject_contacts_unclassified
    (rnd : Q * Q * Q) (w : WorldObject.t) (other : option Cannon.Body) :
  let b := WorldObject.createPhysicsBody rnd w in
  Cannon.userData b = None /\
  CollisionManager.roleOf b = None /\
  existsb CollisionManager.isObstacleEvent
    (CollisionManager.beginContact (Some b) other) = false /\
  existsb CollisionManager.isObstacleEvent
    (CollisionManager.beginContact other (Some b)) = false /\
  CollisionManager.beginContact (Some b) other = [] /\
  CollisionManager.beginContact other (Some b) = [].
Proof.
  intros b.
  assert (Hl : CollisionManager.beginContact (Some b) other = []).
  { destruct other as [o |]; [| reflexivity].
    apply beginContact_no_role_l, worldObject_roleOf. }
  assert (Hr : CollisionManager.beginContact other (Some b) = []).
  { destruct other as [o |]; [| reflexivity].
    apply beginContact_no_role_r, worldObject_roleOf. }
  rewrite Hl, Hr.
  split; [apply worldObject_userData |].
  split; [apply worldObject_roleOf |].
  repeat split; reflexivity.
Qed.

(** ** EntityManager: removal *)

Section Registry.

Import EntityManager.

Lemma removeFirst_absent (x : nat) (l : list nat) :
  ~ In x l -> Js.removeFirst x l = l.
Proof.
  induction l as [| y l IH]; intros H; [reflexivity |].
  cbn [Js.removeFirst].
  destruct (Nat.eqb_spec x y) as [-> | Hne].
  - exfalso. apply H. now left.
  - f_equal. apply IH. intros Hin. apply H. now right.
Qed.

Lemma removeFirst_gone (y : nat) (l : list nat) :
  NoDup l -> y ∉ Js.removeFirst y l.
Proof.
  induction l as [| z l IH]; cbn [Js.removeFirst];
    [intros _; apply not_elem_of_nil |].
  rewrite NoDup_cons. intros [Hz Hl].
  destruct (Nat.eqb_spec y z) as [-> | Hne]; [assumption |].
  apply not_elem_of_cons. split; auto.
Qed.

End Registry.

(** [C9], as the code has it: [removeEntity] makes no test of
    registration.  For an entity that is not registered (the map does not
    hold it under its id): the call deletes whatever entry the map holds
    under the id of the entity, so the map is unchanged exactly when no
    entity is registered under that id, and another entity registered
    under the same id loses its entry; the first occurrence of the visual
    node of the entity is taken out of the scene and the first occurrence
    of its body out of the world (so both are unchanged when they are not
    there or when the entity has none, and in a scene and a world without
    duplicates they are not attached afterwards); and the disposal of the
    entity is invoked. *)
Theorem C9_remove_unregistered (m : EntityManager.t)
    (e : EntityManager.Entity)
    (Hnot : EntityManager.entities m !! EntityManager.getId e <> Some e) :
  let m' := EntityManager.removeEntity e m in
  EntityManager.entities m'
  = delete (EntityManager.getId e) (EntityManager.entities m) /\
  (EntityManager.entities m' = EntityManager.entities m <->
   EntityManager.entities m !! EntityManager.getId e = None) /\
  (forall other,
     EntityManager.entities m !! EntityManager.getId e = Some other ->
     other <> e /\
     EntityManager.entities m' !! EntityManager.getId e = None /\
     EntityManager.entities m' <> EntityManager.entities m) /\
  EntityManager.scene m'
  = match EntityManager.getObject3D e with
    | Some o => Js.removeFirst o (EntityManager.scene m)
    | None => EntityManager.scene m
    end /\
  EntityManager.physicsWorld m'
  = match EntityManager.getPhysicsBody e with
    | Some b => Js.removeFirst b (EntityManager.physicsWorld m)
    | None => EntityManager.physicsWorld m
    end /\
  ((forall o, EntityManager.getObject3D e = Some o ->
              ~ In o (EntityManager.scene m)) ->
   EntityManager.scene m' = EntityManager.scene m) /\
  ((forall b, EntityManager.getPhysicsBody e = Some b ->
              ~ In b (EntityManager.physicsWorld m)) ->
   EntityManager.physicsWorld m' = EntityManager.physicsWorld m) /\
  (forall o, EntityManager.getObject3D e = Some o ->
             NoDup (EntityManager.scene m) ->
             o ∉ EntityManager.scene m') /\
  (forall b, EntityManager.getPhysicsBody e = Some b ->
             NoDup (EntityManager.physicsWorld m) ->
             b ∉ EntityManager.physicsWorld m') /\
  EntityManager.disposed m'
  = EntityManager.disposed m ++ [EntityManager.getId e].
Proof.
  intros m'. unfold m', EntityManager.removeEntity.
  cbn [EntityManager.entities EntityManager.scene EntityManager.physicsWorld
       EntityManager.disposed].
  split; [reflexivity |].
  split.
  { split; intros H.
    - apply (f_equal (fun mp => mp !! EntityManager.getId e)) in H.
      cbn beta in H. rewrite lookup_delete_eq in H. now symmetry.
    - now apply delete_id. }
  split.
  { intros other Hother. split; [congruence |].
    split; [apply lookup_delete_eq |].
    intros H.
    apply (f_equal (fun mp => mp !! EntityManager.getId e)) in H.
    cbn beta in H. rewrite lookup_delete_eq, Hother in H. discriminate H. }
  split; [reflexivity |]. split; [reflexivity |].
  split; [| split; [| split; [| split; [| reflexivity]]]].
  - intros H. destruct (EntityManager.getObject3D e) as [o |];
      [| reflexivity].
    apply removeFirst_absent. now apply H.
  - intros H. destruct (EntityManager.getPhysicsBody e) as [b |];
      [| reflexivity].
    apply removeFirst_absent. now apply H.
  - intros o -> Hnd. now apply removeFirst_gone.
  - intros b -> Hnd. now apply removeFirst_gone.
Qed.

Lemma C9_remove_unregistered_witness :
  let m := EntityManager.addEntity EntityManager.player EntityManager.empty in
  let stranger :=
    {| EntityManager.getId := "player_1"%string;
       EntityManager.getObject3D := Some 8%nat;
       EntityManager.getPhysicsBody := None |} in
  let m' := EntityManager.removeEntity stranger m in
  EntityManager.entities m !! "player_1"%string = Some EntityManager.player /\
  EntityManager.entities m' !! "player_1"%string = None /\
  EntityManager.entities m' <> EntityManager.entities m /\
  EntityManager.scene m' = [7%nat] /\
  EntityManager.physicsWorld m' = [9%nat] /\
  EntityManager.disposed m' = ["player_1"%string].
Proof.
  assert (Hnot :
    EntityManager.entities
      (EntityManager.addEntity EntityManager.player EntityManager.empty)
      !! EntityManager.getId
           {| EntityManager.getId := "player_1"%string;
              EntityManager.getObject3D := Some 8%nat;
              EntityManager.getPhysicsBody := None |}
    <> Some {| EntityManager.getId := "player_1"%string;
               EntityManager.getObject3D := Some 8%nat;
               EntityManager.getPhysicsBody := None |}).
  { vm_compute. discriminate. }
  pose proof (C9_remove_unregistered
                (EntityManager.addEntity EntityManager.player
                   EntityManager.empty) _ Hnot) as H.
  cbv zeta in H.
  destruct H as (_ & _ & H3 & H4 & H5 & _ & _ & _ & _ & H10).
  destruct (H3 EntityManager.player) as (_ & Hgone & Hchanged);
    [reflexivity |].
  cbv zeta. split; [reflexivity |].
  split; [exact Hgone |]. split; [exact Hchanged |].
  split; [exact H4 |]. split; [exact H5 | exact H10].
Defined.

(** [C9], as stated, fails on the code.  Removing an entity that was
    never registered invokes its disposal; and when the entity shares its
    visual node and body with a registered one (a tank and its player),
    the node leaves the scene and the body leaves the world although the
    registry still holds the player. *)
Lemma C9_counterexample :
  let m := EntityManager.addEntity EntityManager.player EntityManager.empty in
  let m' := EntityManager.removeEntity EntityManager.playerTank m in
  EntityManager.entities m !! EntityManager.getId EntityManager.playerTank = None /\
  EntityManager.entities m' !! "player_1"%string = Some EntityManager.player /\
  EntityManager.disposed m = [] /\
  EntityManager.disposed m' = ["tank_1"%string] /\
  EntityManager.scene m = [7%nat] /\
  EntityManager.scene m' = [] /\
  EntityManager.physicsWorld m = [9%nat] /\
  EntityManager.physicsWorld m' = [] /\
  m' <> m.
Proof.
  cbv zeta. repeat split; try reflexivity.
  intros H. apply (f_equal EntityManager.disposed) in H. discriminate H.
Qed.

(** * Further properties of the code *)

(** ** EntityManager: the scene and the world under add and remove *)

Section RegistryLists.

Lemma removeFirst_subset (x y : nat) (l : list nat) :
  x ∈ Js.removeFirst y l -> x ∈ l.
Proof.
  induction l as [| z l IH]; cbn [Js.removeFirst]; [auto |].
  rewrite elem_of_cons.
  destruct (Nat.eqb_spec y z); [auto |].
  rewrite elem_of_cons. intuition.
Qed.

Lemma removeFirst_keeps (x y : nat) (l : list nat) :
  x ∈ l -> x <> y -> x ∈ Js.removeFirst y l.
Proof.
  induction l as [| z l IH]; cbn [Js.removeFirst]; [auto |].
  rewrite elem_of_cons. intros [-> | H] Hne.
  - destruct (Nat.eqb_spec y z); [congruence | apply elem_of_cons; now left].
  - destruct (Nat.eqb_spec y z); [assumption |].
    apply elem_of_cons. right. auto.
Qed.

Lemma removeFirst_NoDup (y : nat) (l : list nat) :
  NoDup l -> NoDup (Js.removeFirst y l).
Proof.
  induction l as [| z l IH]; cbn [Js.removeFirst]; [auto |].
  rewrite NoDup_cons. intros [Hz Hl].
  destruct (Nat.eqb_spec y z); [assumption |].
  apply NoDup_cons. split; [| auto].
  intros Hin. apply Hz. eapply removeFirst_subset; exact Hin.
Qed.

Lemma removeFirst_last (x : nat) (l : list nat) :
  x ∉ l -> Js.removeFirst x (l ++ [x]) = l.
Proof.
  induction l as [| z l IH]; intros H; cbn [Js.removeFirst app].
  - now rewrite Nat.eqb_refl.
  - apply not_elem_of_cons in H. destruct H as [Hne H].
    destruct (Nat.eqb_spec x z) as [-> | _]; [congruence |].
    f_equal. now apply IH.
Qed.

Lemma removeFirst_missing (x : nat) (l : list nat) :
  x ∉ l -> Js.removeFirst x l = l.
Proof.
  intros H. apply removeFirst_absent. now rewrite <- list_elem_of_In.
Qed.

Lemma existsb_eqb_false (x : nat) (l : list nat) :
  x ∉ l -> existsb (Nat.eqb x) l = false.
Proof.
  induction l as [| z l IH]; intros H; [reflexivity |].
  apply not_elem_of_cons in H. destruct H as [Hne H].
  cbn [existsb]. destruct (Nat.eqb_spec x z); [congruence |].
  now apply IH.
Qed.

Lemma existsb_eqb_true (x : nat) (l : list nat) :
  x ∈ l -> existsb (Nat.eqb x) l = true.
Proof.
  intros H. apply existsb_exists. exists x.
  split; [now apply list_elem_of_In | apply Nat.eqb_refl].
Qed.

Lemma sceneAdd_NoDup (o : nat) (sc : list nat) :
  NoDup sc -> NoDup (EntityManager.sceneAdd o sc).
Proof.
  intros H. unfold EntityManager.sceneAdd.
  apply NoDup_app. split; [now apply removeFirst_NoDup |].
  split; [| apply NoDup_singleton].
  intros x Hx Hx'. apply list_elem_of_singleton in Hx'. subst x.
  now apply (removeFirst_gone o sc).
Qed.

Lemma addBody_NoDup (b : nat) (w : list nat) :
  NoDup w -> NoDup (EntityManager.addBody b w).
Proof.
  intros H. unfold EntityManager.addBody.
  destruct (existsb (Nat.eqb b) w) eqn:E; [assumption |].
  apply NoDup_app. split; [assumption |].
  split; [| apply NoDup_singleton].
  intros x Hx Hx'. apply list_elem_of_singleton in Hx'. subst x.
  rewrite existsb_eqb_true in E by assumption. discriminate.
Qed.

End RegistryLists.

Section RegistryOps.

Import EntityManager.

Lemma fold_remove_world (order : list Entity) :
  forall m : EntityManager.t,
    let m' := fold_left (fun acc e => removeEntity e acc) order m in
    (forall x, x ∈ physicsWorld m' -> x ∈ physicsWorld m) /\
    (forall x, x ∈ scene m' -> x ∈ scene m) /\
    (NoDup (physicsWorld m) -> NoDup (physicsWorld m')) /\
    (NoDup (scene m) -> NoDup (scene m')) /\
    disposed m' = disposed m ++ map getId order.
Proof.
  induction order as [| e order IH]; intros m; cbn [fold_left map].
  - cbv zeta. rewrite app_nil_r. auto.
  - destruct (IH (removeEntity e m)) as (Hw & Hs & Hnw & Hns & Hd).
    cbv zeta. repeat split.
    + intros x Hx. apply Hw in Hx. cbn in Hx.
      destruct (getPhysicsBody e); [| assumption].
      eapply removeFirst_subset; exact Hx.
    + intros x Hx. apply Hs in Hx. cbn in Hx.
      destruct (getObject3D e); [| assumption].
      eapply removeFirst_subset; exact Hx.
    + intros H. apply Hnw. cbn.
      destruct (getPhysicsBody e); [| assumption].
      now apply removeFirst_NoDup.
    + intros H. apply Hns. cbn.
      destruct (getObject3D e); [| assumption].
      now apply removeFirst_NoDup.
    + rewrite Hd. cbn. now rewrite <- app_assoc.
Qed.

Lemma fold_remove_detaches (order : list Entity) (e : Entity) :
  e ∈ order ->
  forall m : EntityManager.t,
    let m' := fold_left (fun acc e => removeEntity e acc) order m in
    (forall b, getPhysicsBody e = Some b -> NoDup (physicsWorld m) ->
               b ∉ physicsWorld m') /\
    (forall o, getObject3D e = Some o -> NoDup (scene m) -> o ∉ scene m').
Proof.
  induction order as [| e' order IH]; intros Hin m;
    [now apply elem_of_nil in Hin |].
  apply elem_of_cons in Hin. cbn [fold_left]. cbv zeta.
  destruct (fold_remove_world order (removeEntity e' m))
    as (Hw & Hs & _ & _ & _).
  destruct Hin as [-> | Hin].
  - split.
    + intros b Hb Hnd Hx. apply Hw in Hx. cbn in Hx. rewrite Hb in Hx.
      now apply (removeFirst_gone b (physicsWorld m)).
    + intros o Ho Hnd Hx. apply Hs in Hx. cbn in Hx. rewrite Ho in Hx.
      now apply (removeFirst_gone o (scene m)).
  - destruct (IH Hin (removeEntity e' m)) as [Hb Ho]. split.
    + intros b Hbody Hnd. apply Hb; [assumption |]. cbn.
      destruct (getPhysicsBody e'); [| assumption].
      now apply removeFirst_NoDup.
    + intros o Hnode Hnd. apply Ho; [assumption |]. cbn.
      destruct (getObject3D e'); [| assumption].
      now apply removeFirst_NoDup.
Qed.

Lemma step_NoDup (o : op) (m : EntityManager.t) :
  NoDup (scene m) -> NoDup (physicsWorld m) ->
  NoDup (scene (step o m)) /\ NoDup (physicsWorld (step o m)).
Proof.
  intros Hs Hw. destruct o as [e | e |]; cbn [step].
  - unfold addEntity. cbn. split.
    + destruct (getObject3D e); [now apply sceneAdd_NoDup | assumption].
    + destruct (getPhysicsBody e); [now apply addBody_NoDup | assumption].
  - unfold removeEntity. cbn. split.
    + destruct (getObject3D e); [now apply removeFirst_NoDup | assumption].
    + destruct (getPhysicsBody e); [now apply removeFirst_NoDup | assumption].
  - unfold clear, clearVisiting. cbn.
    destruct (fold_remove_world (registered m) m) as (_ & _ & Hnw & Hns & _).
    auto.
Qed.

Lemma step_wellKeyed (o : op) (m : EntityManager.t) :
  wellKeyed m -> wellKeyed (step o m).
Proof.
  intros H id e'. destruct o as [e | e |]; cbn [step].
  - unfold addEntity. cbn [entities].
    destruct (decide (getId e = id)) as [<- | Hne].
    + rewrite lookup_insert_eq. now intros [= <-].
    + rewrite lookup_insert_ne by exact Hne. apply H.
  - unfold removeEntity. cbn [entities].
    destruct (decide (getId e = id)) as [<- | Hne].
    + now rewrite lookup_delete_eq.
    + rewrite lookup_delete_ne by exact Hne. apply H.
  - unfold clear, clearVisiting. cbn [entities].
    now rewrite lookup_empty.
Qed.

Lemma run_wellKeyed (ops : list op) :
  forall m : EntityManager.t, wellKeyed m -> wellKeyed (run ops m).
Proof.
  induction ops as [| o ops IH]; intros m H; [exact H |].
  cbn [run fold_left]. apply IH. now apply step_wellKeyed.
Qed.

Lemma empty_wellKeyed : wellKeyed empty.
Proof. intros id e. cbn. now rewrite lookup_empty. Qed.

End RegistryOps.

(** [X1] Adding an entity and removing it again is net zero for the scene,
    the physics world and the registry, when the entity's id is not in
    use and its node and body are not attached yet; the one trace left is
    the disposal of the entity. *)
Theorem registry_add_then_remove_net_zero (m : EntityManager.t)
    (e : EntityManager.Entity)
    (Hid : EntityManager.entities m !! EntityManager.getId e = None)
    (Hnode : forall o, EntityManager.getObject3D e = Some o ->
                       o ∉ EntityManager.scene m)
    (Hbody : forall b, EntityManager.getPhysicsBody e = Some b ->
                       b ∉ EntityManager.physicsWorld m) :
  let m' := EntityManager.removeEntity e (EntityManager.addEntity e m) in
  EntityManager.scene m' = EntityManager.scene m /\
  EntityManager.physicsWorld m' = EntityManager.physicsWorld m /\
  EntityManager.entities m' = EntityManager.entities m /\
  EntityManager.disposed m'
  = EntityManager.disposed m ++ [EntityManager.getId e].
Proof.
  intros m'. unfold m', EntityManager.removeEntity, EntityManager.addEntity.
  cbn. repeat split.
  - destruct (EntityManager.getObject3D e) as [o |]; [| reflexivity].
    specialize (Hnode o eq_refl).
    unfold EntityManager.sceneAdd.
    rewrite (removeFirst_missing o (EntityManager.scene m) Hnode).
    now apply removeFirst_last.
  - destruct (EntityManager.getPhysicsBody e) as [b |]; [| reflexivity].
    specialize (Hbody b eq_refl).
    unfold EntityManager.addBody.
    rewrite existsb_eqb_false by exact Hbody.
    now apply removeFirst_last.
  - now apply delete_insert_id.
Qed.

Lemma registry_add_then_remove_net_zero_witness :
  let m := EntityManager.addEntity EntityManager.player EntityManager.empty in
  let e :=
    {| EntityManager.getId := "shell_1"; EntityManager.getObject3D := Some 3%nat;
       EntityManager.getPhysicsBody := Some 4%nat |} in
  let m' := EntityManager.removeEntity e (EntityManager.addEntity e m) in
  EntityManager.scene m' = [7%nat] /\
  EntityManager.physicsWorld m' = [9%nat] /\
  EntityManager.entities m' = EntityManager.entities m /\
  EntityManager.disposed m' = ["shell_1"%string].
Proof.
  apply (registry_add_then_remove_net_zero
           (EntityManager.addEntity EntityManager.player EntityManager.empty)
           {| EntityManager.getId := "shell_1";
              EntityManager.getObject3D := Some 3%nat;
              EntityManager.getPhysicsBody := Some 4%nat |}).
  - reflexivity.
  - intros o [= <-]. cbn. rewrite list_elem_of_singleton. lia.
  - intros b [= <-]. cbn. rewrite list_elem_of_singleton. lia.
Defined.

(** [X2] Registering a second entity under an id that is in use replaces the
    first in the registry without detaching it: once the second is
    removed, the id is free, yet the node and the body of the first are
    still in the scene and in the world, out of the registry's reach. *)
Theorem registry_id_collision_orphans_first (m : EntityManager.t)
    (e1 e2 : EntityManager.Entity) (o1 o2 b1 b2 : nat)
    (Hid : EntityManager.getId e1 = EntityManager.getId e2)
    (Hn1 : EntityManager.getObject3D e1 = Some o1)
    (Hn2 : EntityManager.getObject3D e2 = Some o2)
    (Hb1 : EntityManager.getPhysicsBody e1 = Some b1)
    (Hb2 : EntityManager.getPhysicsBody e2 = Some b2)
    (Hnode : o1 <> o2) (Hbody : b1 <> b2) :
  let m' :=
    EntityManager.run
      [EntityManager.Add e1; EntityManager.Add e2; EntityManager.Remove e2] m in
  EntityManager.getEntity (EntityManager.getId e1) m' = None /\
  o1 ∈ EntityManager.scene m' /\
  b1 ∈ EntityManager.physicsWorld m'.
Proof.
  intros m'. unfold m'. cbn [EntityManager.run fold_left EntityManager.step].
  unfold EntityManager.getEntity, EntityManager.removeEntity,
    EntityManager.addEntity.
  cbn. rewrite Hn1, Hn2, Hb1, Hb2, Hid. repeat split.
  - apply lookup_delete_eq.
  - apply removeFirst_keeps; [| assumption].
    unfold EntityManager.sceneAdd at 1. apply elem_of_app. left.
    apply removeFirst_keeps; [| assumption].
    unfold EntityManager.sceneAdd. apply elem_of_app. right.
    now apply list_elem_of_singleton.
  - apply removeFirst_keeps; [| assumption].
    assert (H1 : b1 ∈ EntityManager.addBody b1 (EntityManager.physicsWorld m)).
    { unfold EntityManager.addBody.
      destruct (existsb (Nat.eqb b1) _) eqn:E.
      - apply existsb_exists in E. destruct E as (x & Hx & Heq).
        apply Nat.eqb_eq in Heq. subst x. now apply list_elem_of_In.
      - apply elem_of_app. right. now apply list_elem_of_singleton. }
    unfold EntityManager.addBody at 1.
    destruct (existsb (Nat.eqb b2) _); [assumption |].
    apply elem_of_app. now left.
Qed.

Lemma registry_id_collision_orphans_first_witness :
  let e1 :=
    {| EntityManager.getId := "p"; EntityManager.getObject3D := Some 1%nat;
       EntityManager.getPhysicsBody := Some 2%nat |} in
  let e2 :=
    {| EntityManager.getId := "p"; EntityManager.getObject3D := Some 3%nat;
       EntityManager.getPhysicsBody := Some 4%nat |} in
  let m' :=
    EntityManager.run
      [EntityManager.Add e1; EntityManager.Add e2; EntityManager.Remove e2]
      EntityManager.empty in
  EntityManager.getEntity "p" m' = None /\
  1%nat ∈ EntityManager.scene m' /\
  2%nat ∈ EntityManager.physicsWorld m'.
Proof.
  apply (registry_id_collision_orphans_first EntityManager.empty
           {| EntityManager.getId := "p";
              EntityManager.getObject3D := Some 1%nat;
              EntityManager.getPhysicsBody := Some 2%nat |}
           {| EntityManager.getId := "p";
              EntityManager.getObject3D := Some 3%nat;
              EntityManager.getPhysicsBody := Some 4%nat |}
           1%nat 3%nat 2%nat 4%nat); try reflexivity; lia.
Defined.

(** [X3] Whatever the sequence of [addEntity], [removeEntity] and [clear]
    calls on a new manager, no node is in the scene twice, no body is in
    the physics world twice, and every entity of the registry is stored
    under its own id. *)
Theorem registry_lists_stay_duplicate_free (ops : list EntityManager.op) :
  NoDup (EntityManager.scene (EntityManager.run ops EntityManager.empty)) /\
  NoDup (EntityManager.physicsWorld
           (EntityManager.run ops EntityManager.empty)) /\
  EntityManager.wellKeyed (EntityManager.run ops EntityManager.empty).
Proof.
  assert (H : forall m,
             NoDup (EntityManager.scene m) ->
             NoDup (EntityManager.physicsWorld m) ->
             NoDup (EntityManager.scene (EntityManager.run ops m)) /\
             NoDup (EntityManager.physicsWorld (EntityManager.run ops m))).
  { induction ops as [| o ops IH]; intros m Hs Hw; [auto |].
    cbn [EntityManager.run fold_left].
    destruct (step_NoDup o m Hs Hw) as [Hs' Hw'].
    now apply IH. }
  destruct (H EntityManager.empty) as [Hs Hw];
    [apply NoDup_nil; exact I | apply NoDup_nil; exact I |].
  split; [exact Hs |]. split; [exact Hw |].
  apply run_wellKeyed, empty_wellKeyed.
Qed.

(** [X4] [clear()] on a registry whose entities are stored under their own
    ids, whatever the order in which they are visited: the registry is
    empty afterwards, every entity it held has been disposed, once for
    each, and, in a scene and a world without duplicates, no node and no
    body of a registered entity is left attached.  Nodes and bodies that
    were not attached before are not attached after. *)
Theorem registry_clear_detaches_everything (m : EntityManager.t)
    (order : list EntityManager.Entity)
    (Hkeys : EntityManager.wellKeyed m)
    (Horder : order ≡ₚ EntityManager.registered m)
    (Hscene : NoDup (EntityManager.scene m))
    (Hworld : NoDup (EntityManager.physicsWorld m)) :
  let m' := EntityManager.clearVisiting order m in
  EntityManager.entities m' = ∅ /\
  EntityManager.disposed m'
  = EntityManager.disposed m ++ map EntityManager.getId order /\
  length (EntityManager.disposed m')
  = (length (EntityManager.disposed m) + size (EntityManager.entities m))%nat /\
  (forall id e,
     EntityManager.entities m !! id = Some e ->
     EntityManager.getId e ∈ EntityManager.disposed m' /\
     (forall b, EntityManager.getPhysicsBody e = Some b ->
                b ∉ EntityManager.physicsWorld m') /\
     (forall o, EntityManager.getObject3D e = Some o ->
                o ∉ EntityManager.scene m')) /\
  (forall x, x ∈ EntityManager.scene m' -> x ∈ EntityManager.scene m) /\
  (forall x, x ∈ EntityManager.physicsWorld m' ->
             x ∈ EntityManager.physicsWorld m).
Proof.
  intros m'. unfold m', EntityManager.clearVisiting. cbn.
  destruct (fold_remove_world order m) as (Hw & Hs & _ & _ & Hd).
  cbv zeta in *. split; [reflexivity |]. split; [exact Hd |].
  split.
  { rewrite Hd, length_app, length_map. f_equal.
    rewrite Horder. unfold EntityManager.registered.
    now rewrite length_fmap, length_map_to_list. }
  split; [| split; assumption].
  intros id e He.
  assert (Hin : e ∈ order).
  { rewrite Horder. unfold EntityManager.registered.
    apply list_elem_of_fmap. exists (id, e). split; [reflexivity |].
    now apply elem_of_map_to_list. }
  destruct (fold_remove_detaches order e Hin m) as [Hb Ho].
  cbv zeta in *. split; [| split].
  - rewrite Hd. apply elem_of_app. right.
    apply list_elem_of_In, in_map, list_elem_of_In. exact Hin.
  - intros b Hbody. now apply Hb.
  - intros o Hnode. now apply Ho.
Qed.

Lemma registry_clear_detaches_everything_witness :
  let m :=
    EntityManager.run
      [EntityManager.Add EntityManager.player;
       EntityManager.Add
         {| EntityManager.getId := "shell_1";
            EntityManager.getObject3D := Some 3%nat;
            EntityManager.getPhysicsBody := Some 4%nat |}]
      EntityManager.empty in
  EntityManager.entities (EntityManager.clear m) = ∅ /\
  length (EntityManager.disposed (EntityManager.clear m)) = 2%nat.
Proof.
  pose proof (registry_clear_detaches_everything
    (EntityManager.run
       [EntityManager.Add EntityManager.player;
        EntityManager.Add
          {| EntityManager.getId := "shell_1";
             EntityManager.getObject3D := Some 3%nat;
             EntityManager.getPhysicsBody := Some 4%nat |}]
       EntityManager.empty)
    (EntityManager.registered
       (EntityManager.run
          [EntityManager.Add EntityManager.player;
           EntityManager.Add
             {| EntityManager.getId := "shell_1";
                EntityManager.getObject3D := Some 3%nat;
                EntityManager.getPhysicsBody := Some 4%nat |}]
          EntityManager.empty))) as H.
  cbv zeta in H.
  destruct H as (H1 & _ & H3 & _).
  - apply run_wellKeyed, empty_wellKeyed.
  - reflexivity.
  - vm_compute. repeat constructor; cbv; inversion 1; subst;
      match goal with H : _ ∈ [] |- _ => inversion H | _ => idtac end.
  - vm_compute. repeat constructor; cbv; inversion 1; subst;
      match goal with H : _ ∈ [] |- _ => inversion H | _ => idtac end.
  - split; [exact H1 | exact H3].
Defined.

(** ** EventEmitter *)

Section Emitter.

Import EventEmitter.

Lemma spliceFirst_middle (cb : Callback) (pre post : list Callback) :
  cb ∉ pre -> spliceFirst cb (pre ++ cb :: post) = pre ++ post.
Proof.
  induction pre as [| y pre IH]; intros H; cbn [spliceFirst app].
  - now rewrite decide_True.
  - apply not_elem_of_cons in H. destruct H as [Hne H].
    rewrite decide_False by exact Hne. f_equal. now apply IH.
Qed.

Lemma spliceFirst_missing (cb : Callback) (l : list Callback) :
  cb ∉ l -> spliceFirst cb l = l.
Proof.
  induction l as [| y l IH]; intros H; [reflexivity |].
  apply not_elem_of_cons in H. destruct H as [Hne H].
  cbn [spliceFirst]. rewrite decide_False by exact Hne.
  f_equal. now apply IH.
Qed.

Lemma spliceFirst_last (cb : Callback) (l : list Callback) :
  cb ∉ l -> spliceFirst cb (l ++ [cb]) = l.
Proof.
  intros H. rewrite spliceFirst_middle by exact H. apply app_nil_r.
Qed.

Lemma onceUnique_split (pre post : list Callback) (h f : nat) :
  onceUnique (pre ++ Once h f :: post) ->
  (Once h f ∉ pre) /\ onceUnique (pre ++ post).
Proof.
  unfold onceUnique.
  rewrite !filter_app, filter_cons_True by reflexivity.
  rewrite !NoDup_app, NoDup_cons.
  intros (Hpre & Hdisj & _ & Hpost). split.
  - intros Hin.
    apply (Hdisj (Once h f)).
    + apply list_elem_of_filter. split; [reflexivity | exact Hin].
    + apply elem_of_cons. now left.
  - repeat split; [exact Hpre | | exact Hpost].
    intros x Hx Hx'. apply (Hdisj x Hx). apply elem_of_cons. now right.
Qed.

Lemma onceUnique_plain (pre post : list Callback) (g : nat) :
  onceUnique (pre ++ Plain g :: post) -> onceUnique (pre ++ post).
Proof.
  unfold onceUnique.
  rewrite !filter_app, filter_cons_False by discriminate.
  auto.
Qed.

Lemma withListeners_lookup (e : string) (l : list Callback) (m : EventEmitter.t) :
  l <> [] -> withListeners e l m !! e = Some l.
Proof.
  destruct l; [congruence |]. intros _. apply lookup_insert_eq.
Qed.

Lemma off_withListeners (e : string) (cb : Callback) (l : list Callback)
    (m : EventEmitter.t) :
  l <> [] ->
  off e cb (withListeners e l m) = withListeners e (spliceFirst cb l) m.
Proof.
  intros Hl. unfold off. rewrite withListeners_lookup by exact Hl.
  destruct l as [| y l]; [congruence |].
  unfold withListeners at 1.
  destruct (spliceFirst cb (y :: l)) as [| z r]; cbn [withListeners].
  - apply delete_insert_eq.
  - apply insert_insert_eq.
Qed.

(** The loop, from index [length pre] on: it ends on its own within
    [length suf] turns, with the listeners and calls that [remaining] and
    [called] give. *)
Lemma emitLoop_spec (e : string) (m : EventEmitter.t) (fuel : nat) :
  forall (pre suf : list Callback) (calls : list nat),
    (length suf <= fuel)%nat ->
    onceUnique (pre ++ suf) ->
    emitLoop fuel e (length pre) (pre ++ suf)
      (withListeners e (pre ++ suf) m) calls
    = (pre ++ remaining suf,
       withListeners e (pre ++ remaining suf) m,
       calls ++ called suf).
Proof.
  induction fuel as [| fuel IH]; intros pre suf calls Hlen Huniq.
  - destruct suf; [| cbn in Hlen; lia].
    cbn. now rewrite !app_nil_r.
  - destruct suf as [| [g | h g] suf]; cbn [emitLoop].
    + rewrite app_nil_r.
      replace (nth_error pre (length pre)) with (@None Callback)
        by (symmetry; apply nth_error_None; lia).
      cbn. now rewrite !app_nil_r.
    + rewrite nth_error_app2, Nat.sub_diag by lia. cbn [nth_error].
      replace (S (length pre)) with (length (pre ++ [Plain g]))
        by (rewrite length_app; cbn; lia).
      replace (pre ++ Plain g :: suf) with ((pre ++ [Plain g]) ++ suf)
        by (now rewrite <- app_assoc).
      rewrite IH.
      * cbn [remaining called]. now rewrite <- !app_assoc.
      * cbn in Hlen. lia.
      * now rewrite <- app_assoc.
    + rewrite nth_error_app2, Nat.sub_diag by lia. cbn [nth_error].
      destruct (onceUnique_split pre suf h g Huniq) as [Hfresh Huniq'].
      rewrite off_withListeners by (destruct pre; discriminate).
      rewrite spliceFirst_middle by exact Hfresh.
      destruct suf as [| x suf].
      * rewrite app_nil_r. cbn [remaining called].
        rewrite app_nil_r.
        destruct fuel as [| fuel]; [reflexivity |].
        cbn [emitLoop].
        replace (nth_error pre (S (length pre))) with (@None Callback)
          by (symmetry; apply nth_error_None; lia).
        reflexivity.
      * replace (S (length pre)) with (length (pre ++ [x]))
          by (rewrite length_app; cbn; lia).
        replace (pre ++ x :: suf) with ((pre ++ [x]) ++ suf)
          by (now rewrite <- app_assoc).
        rewrite IH.
        -- cbn [remaining called]. now rewrite <- !app_assoc.
        -- cbn in Hlen. lia.
        -- now rewrite <- app_assoc.
Qed.

Lemma emitLoop_plain (e : string) (m : EventEmitter.t) (fuel : nat) :
  forall (pre suf : list Callback) (calls : list nat),
    (length suf <= fuel)%nat ->
    Forall (fun cb => isOnce cb = false) suf ->
    emitLoop fuel e (length pre) (pre ++ suf) m calls
    = (pre ++ suf, m, calls ++ map fnOf suf).
Proof.
  induction fuel as [| fuel IH]; intros pre suf calls Hlen Hplain.
  - destruct suf; [| cbn in Hlen; lia].
    cbn. now rewrite !app_nil_r.
  - destruct suf as [| cb suf]; cbn [emitLoop].
    + rewrite app_nil_r.
      replace (nth_error pre (length pre)) with (@None Callback)
        by (symmetry; apply nth_error_None; lia).
      cbn. now rewrite !app_nil_r.
    + rewrite nth_error_app2, Nat.sub_diag by lia. cbn [nth_error].
      apply Forall_cons in Hplain. destruct Hplain as [Hcb Hplain].
      destruct cb as [g | h g]; [| discriminate].
      replace (S (length pre)) with (length (pre ++ [Plain g]))
        by (rewrite length_app; cbn; lia).
      replace (pre ++ Plain g :: suf) with ((pre ++ [Plain g]) ++ suf)
        by (now rewrite <- app_assoc).
      rewrite IH; [| cbn in Hlen; lia | exact Hplain].
      cbn [map fnOf]. now rewrite <- !app_assoc.
Qed.

Lemma on_noEmptyList (e : string) (cb : Callback) (m : EventEmitter.t) :
  noEmptyList m -> noEmptyList (on e cb m).
Proof.
  intros H e' l. unfold on.
  destruct (decide (e = e')) as [<- | Hne].
  - rewrite lookup_insert_eq. intros [= <-].
    destruct (default [] (m !! e)); discriminate.
  - rewrite lookup_insert_ne by exact Hne. apply H.
Qed.

Lemma off_noEmptyList (e : string) (cb : Callback) (m : EventEmitter.t) :
  noEmptyList m -> noEmptyList (off e cb m).
Proof.
  intros H e' l. unfold off.
  destruct (m !! e) as [callbacks |] eqn:E; [| apply H].
  destruct (spliceFirst cb callbacks) as [| y r] eqn:Es.
  - destruct (decide (e = e')) as [<- | Hne].
    + now rewrite lookup_delete_eq.
    + rewrite lookup_delete_ne by exact Hne. apply H.
  - destruct (decide (e = e')) as [<- | Hne].
    + rewrite lookup_insert_eq. intros [= <-]. discriminate.
    + rewrite lookup_insert_ne by exact Hne. apply H.
Qed.

Lemma emitLoop_noEmptyList (e : string) (fuel : nat) :
  forall (i : nat) (callbacks : list Callback) (m : EventEmitter.t)
         (calls : list nat),
    noEmptyList m ->
    noEmptyList (snd (fst (emitLoop fuel e i callbacks m calls))).
Proof.
  induction fuel as [| fuel IH]; intros i callbacks m calls H; [exact H |].
  cbn [emitLoop]. destruct (nth_error callbacks i) as [[g | h g] |].
  - now apply IH.
  - apply IH. now apply off_noEmptyList.
  - exact H.
Qed.

Lemma step_noEmptyList (o : op) (m : EventEmitter.t) :
  noEmptyList m -> noEmptyList (step o m).
Proof.
  intros H. destruct o as [e cb | e cb | e | e]; cbn [step].
  - now apply on_noEmptyList.
  - now apply off_noEmptyList.
  - unfold emit. destruct (m !! e) as [callbacks |]; [| exact H].
    pose proof (emitLoop_noEmptyList e (length callbacks) 0 callbacks m [] H)
      as H'.
    destruct (emitLoop _ _ _ _ _ _) as [[arr m'] calls]. exact H'.
  - unfold removeAllListeners.
    assert (Hempty : noEmptyList (∅ : EventEmitter.t))
      by (intros e' l; now rewrite lookup_empty).
    destruct e as [e |]; [| exact Hempty].
    destruct (String.eqb e ""); [exact Hempty |].
    intros e' l. destruct (decide (e = e')) as [<- | Hne].
    + now rewrite lookup_delete_eq.
    + rewrite lookup_delete_ne by exact Hne. apply H.
Qed.

End Emitter.

(** [X5] Under every sequence of [on], [off], [emit] and
    [removeAllListeners] calls on a new emitter, no event is kept with an
    empty list of listeners: [off] drops an event with its last
    listener. *)
Theorem emitter_keeps_no_empty_event (ops : list EventEmitter.op) :
  EventEmitter.noEmptyList (EventEmitter.run ops ∅).
Proof.
  assert (H : forall m : EventEmitter.t,
             EventEmitter.noEmptyList m ->
             EventEmitter.noEmptyList (EventEmitter.run ops m)).
  { induction ops as [| o ops IH]; intros m Hm; [exact Hm |].
    cbn [EventEmitter.run fold_left]. apply IH.
    now apply step_noEmptyList. }
  apply H. intros e l. now rewrite lookup_empty.
Qed.

(** [X6] [on] then [off] with the same listener.  The listener list of the
    event becomes the old list with the listener appended and its first
    occurrence taken out; so when the listener was not registered for the
    event the emitter is back to what it was, and when it was, it is the
    earlier registration that goes and the listener ends up last. *)
Theorem emitter_on_then_off (m : EventEmitter.t) (e : string)
    (cb : EventEmitter.Callback)
    (Hm : EventEmitter.noEmptyList m) :
  let l := default [] (m !! e) in
  let m' := EventEmitter.off e cb (EventEmitter.on e cb m) in
  (cb ∉ l -> m' = m) /\
  (cb ∈ l ->
   m' !! e = Some (EventEmitter.spliceFirst cb l ++ [cb]) /\
   length (EventEmitter.spliceFirst cb l ++ [cb]) = length l) /\
  (forall e', e' <> e -> m' !! e' = m !! e').
Proof.
  intros l m'. unfold m', EventEmitter.off, EventEmitter.on.
  rewrite lookup_insert_eq. fold l. split; [| split].
  - intros Hfresh. rewrite spliceFirst_last by exact Hfresh.
    destruct l as [| y r] eqn:El.
    + apply delete_insert_id.
      destruct (m !! e) as [l0 |] eqn:E; [| reflexivity].
      exfalso. unfold l in El. cbn in El. subst l0. now apply (Hm e []).
    + rewrite insert_insert_eq. apply insert_id.
      destruct (m !! e) as [l0 |] eqn:E; [| discriminate].
      unfold l in El. cbn in El. now subst l0.
  - intros Hin.
    assert (Hsplit : exists pre post,
               l = pre ++ cb :: post /\ cb ∉ pre).
    { clear -Hin. induction l as [| y r IH];
        [now apply elem_of_nil in Hin |].
      destruct (decide (cb = y)) as [<- | Hne].
      - exists [], r. split; [reflexivity | apply not_elem_of_nil].
      - apply elem_of_cons in Hin. destruct Hin as [-> | Hin]; [congruence |].
        destruct (IH Hin) as (pre & post & -> & Hpre).
        exists (y :: pre), post. split; [reflexivity |].
        apply not_elem_of_cons. auto. }
    destruct Hsplit as (pre & post & Hl & Hpre).
    assert (Hs : EventEmitter.spliceFirst cb (l ++ [cb])
                 = EventEmitter.spliceFirst cb l ++ [cb]).
    { rewrite Hl, <- app_assoc. cbn [app].
      rewrite !spliceFirst_middle by exact Hpre.
      now rewrite <- app_assoc. }
    rewrite Hs.
    assert (Hlen : length (EventEmitter.spliceFirst cb l ++ [cb]) = length l).
    { rewrite Hl, spliceFirst_middle by exact Hpre.
      rewrite !length_app. cbn. lia. }
    split; [| exact Hlen].
    destruct (EventEmitter.spliceFirst cb l ++ [cb]) as [| z r] eqn:Er.
    + destruct l; [now apply elem_of_nil in Hin | discriminate Hlen].
    + apply lookup_insert_eq.
  - intros e' Hne.
    destruct (EventEmitter.spliceFirst cb (l ++ [cb])).
    + rewrite lookup_delete_ne, lookup_insert_ne by congruence. reflexivity.
    + rewrite !lookup_insert_ne by congruence. reflexivity.
Qed.

Lemma emitter_on_then_off_witness :
  let m := EventEmitter.on "hit" (EventEmitter.Plain 1) ∅ in
  EventEmitter.off "hit" (EventEmitter.Plain 2)
    (EventEmitter.on "hit" (EventEmitter.Plain 2) m) = m.
Proof.
  refine (proj1
    (emitter_on_then_off (EventEmitter.on "hit" (EventEmitter.Plain 1) ∅)
       "hit" (EventEmitter.Plain 2) _) _).
  - apply on_noEmptyList. intros e l. now rewrite lookup_empty.
  - unfold EventEmitter.on. rewrite lookup_insert_eq, lookup_empty. cbn.
    rewrite list_elem_of_singleton. discriminate.
Defined.

(** [X7] [emit] on an event without listeners calls nothing, and on an event
    whose listeners are all plain functions it calls every one of them,
    in the order of registration, a function registered twice being
    called twice; the emitter is unchanged in both cases. *)
Theorem emitter_emit_plain (m : EventEmitter.t) (e : string) :
  (m !! e = None -> EventEmitter.emit e m = (m, [])) /\
  (forall l,
     m !! e = Some l ->
     Forall (fun cb => EventEmitter.isOnce cb = false) l ->
     EventEmitter.emit e m = (m, map EventEmitter.fnOf l)).
Proof.
  split.
  - intros H. unfold EventEmitter.emit. now rewrite H.
  - intros l Hl Hplain. unfold EventEmitter.emit. rewrite Hl.
    pose proof (emitLoop_plain e m (length l) [] l [] (Nat.le_refl _) Hplain)
      as H.
    cbn [length app] in H. now rewrite H.
Qed.

Lemma emitter_emit_plain_witness :
  let m :=
    EventEmitter.run
      [EventEmitter.On "hit" (EventEmitter.Plain 1);
       EventEmitter.On "hit" (EventEmitter.Plain 2);
       EventEmitter.On "hit" (EventEmitter.Plain 1)] ∅ in
  EventEmitter.emit "hit" m = (m, [1; 2; 1]%nat) /\
  EventEmitter.emit "miss" m = (m, []).
Proof.
  split.
  - refine (proj2
      (emitter_emit_plain
         (EventEmitter.run
            [EventEmitter.On "hit" (EventEmitter.Plain 1);
             EventEmitter.On "hit" (EventEmitter.Plain 2);
             EventEmitter.On "hit" (EventEmitter.Plain 1)] ∅) "hit")
      [EventEmitter.Plain 1; EventEmitter.Plain 2; EventEmitter.Plain 1]
      _ _).
    + reflexivity.
    + repeat constructor.
  - apply (proj1 (emitter_emit_plain _ "miss")). reflexivity.
Defined.

(** [X8] [emit] on an event with [once] listeners, each [once] closure being
    registered once.  A [once] listener is called and leaves the list; the
    listener registered right behind it moves into its place while the
    loop moves on, so it is not called by this [emit] and stays
    registered.  The calls made are [called l] and the listeners left are
    [remaining l]; the event is dropped when none is left, and the other
    events are untouched. *)
Theorem emitter_emit_once_skips_next (m : EventEmitter.t) (e : string)
    (l : list EventEmitter.Callback)
    (Hm : EventEmitter.noEmptyList m)
    (Hl : m !! e = Some l)
    (Huniq : EventEmitter.onceUnique l) :
  snd (EventEmitter.emit e m) = EventEmitter.called l /\
  fst (EventEmitter.emit e m) !! e
  = match EventEmitter.remaining l with
    | [] => None
    | r => Some r
    end /\
  (forall e', e' <> e -> fst (EventEmitter.emit e m) !! e' = m !! e') /\
  (forall pre h f x post,
     l = pre ++ EventEmitter.Once h f :: x :: post ->
     Forall (fun cb => EventEmitter.isOnce cb = false) pre ->
     EventEmitter.called l
     = map EventEmitter.fnOf pre ++ f :: EventEmitter.called post /\
     EventEmitter.remaining l = pre ++ x :: EventEmitter.remaining post).
Proof.
  assert (Hne : l <> []) by exact (Hm e l Hl).
  assert (Hsync : EventEmitter.withListeners e l m = m).
  { destruct l; [congruence |]. now apply insert_id. }
  pose proof (emitLoop_spec e m (length l) [] l [] (Nat.le_refl _) Huniq)
    as Hloop.
  cbn [length app] in Hloop. rewrite Hsync in Hloop.
  unfold EventEmitter.emit. rewrite Hl, Hloop. cbn [fst snd].
  split; [reflexivity |]. split; [| split].
  - destruct (EventEmitter.remaining l) as [| y r];
      cbn [EventEmitter.withListeners].
    + apply lookup_delete_eq.
    + apply lookup_insert_eq.
  - intros e' He'.
    destruct (EventEmitter.remaining l); cbn [EventEmitter.withListeners].
    + now rewrite lookup_delete_ne by congruence.
    + now rewrite lookup_insert_ne by congruence.
  - intros pre h f x post -> Hplain.
    clear Hl Huniq Hne Hsync Hloop. revert Hplain.
    induction pre as [| cb pre IH]; intros Hplain; [split; reflexivity |].
    apply Forall_cons in Hplain. destruct Hplain as [Hcb Hplain].
    destruct cb as [g | h' g]; [| discriminate].
    destruct (IH Hplain) as [Hc Hr].
    cbn [app EventEmitter.called EventEmitter.remaining map EventEmitter.fnOf].
    now rewrite Hc, Hr.
Qed.

Lemma emitter_emit_once_skips_next_witness :
  let m :=
    EventEmitter.on "hit" (EventEmitter.Plain 2)
      (EventEmitter.once "hit" 10 1 ∅) in
  snd (EventEmitter.emit "hit" m) = [1%nat] /\
  fst (EventEmitter.emit "hit" m) !! "hit"%string
  = Some [EventEmitter.Plain 2].
Proof.
  pose proof (emitter_emit_once_skips_next
    (EventEmitter.on "hit" (EventEmitter.Plain 2)
       (EventEmitter.once "hit" 10 1 ∅))
    "hit" [EventEmitter.Once 10 1; EventEmitter.Plain 2]) as H.
  destruct H as (H1 & H2 & _).
  - apply on_noEmptyList, on_noEmptyList.
    intros e l. now rewrite lookup_empty.
  - reflexivity.
  - unfold EventEmitter.onceUnique. vm_compute. repeat constructor.
    inversion 1.
  - split; [exact H1 | exact H2].
Defined.

(** ** Tank: the magazine, respawn *)

Section TankCycle.

Import Tank.

Lemma fires_magazine (n : nat) :
  forall s : Tank.t,
    ammo s = Z.of_nat (S n) -> isReloading s = false ->
    fires (S n) s = (repeat true (S n), startReload (set_ammo 0 s)).
Proof.
  induction n as [| n IH]; intros s Ha Hr.
  - cbn [fires]. rewrite fire_accepted by (auto; lia).
    rewrite Ha. reflexivity.
  - remember (S n) as k. cbn [fires].
    rewrite fire_accepted by (auto; lia).
    destruct (ammo s - 1 =? 0)%Z eqn:E; [apply Z.eqb_eq in E; lia |].
    rewrite (IH (set_ammo (ammo s - 1) s)) by (cbn; auto; lia).
    cbn [repeat]. reflexivity.
Qed.

Lemma step_frame (o : op) (s : Tank.t) :
  maxHealth (step o s) = maxHealth s /\
  maxAmmo (step o s) = maxAmmo s /\
  reloadTime (step o s) = reloadTime s /\
  damageDealt (step o s) = damageDealt s.
Proof.
  destruct o; cbn [step]; try (repeat split; reflexivity).
  - unfold fire. destruct ((ammo s <=? 0)%Z || isReloading s); cbn [snd];
      [repeat split; reflexivity |].
    cbn [set_ammo ammo]. destruct (ammo s - 1 <=? 0)%Z;
      repeat split; reflexivity.
  - unfold update. destruct (isReloading s); [| repeat split; reflexivity].
    cbn [set_reload reloadTimer reloadTime maxAmmo].
    destruct (Js.ge _ _); repeat split; reflexivity.
  - unfold reloadInput.
    destruct (reload && negb (isReloading s) && (ammo s <? maxAmmo s)%Z);
      repeat split; reflexivity.
Qed.

Lemma run_frame (ops : list op) :
  forall s : Tank.t,
    maxHealth (run ops s) = maxHealth s /\
    maxAmmo (run ops s) = maxAmmo s /\
    reloadTime (run ops s) = reloadTime s /\
    damageDealt (run ops s) = damageDealt s.
Proof.
  induction ops as [| o ops IH]; intros s; [repeat split; reflexivity |].
  cbn [run fold_left].
  destruct (IH (step o s)) as (A & B & C & D).
  destruct (step_frame o s) as (A' & B' & C' & D').
  fold (run ops (step o s)).
  repeat split; congruence.
Qed.

End TankCycle.

(** [X9] A tank with [n] rounds ([n] positive) that is not reloading: the
    next [n] calls of [fire()] all return [true], leave the ammunition at
    0 and the tank reloading with its timer at 0, and every further call
    returns [false] without a change. *)
Theorem tank_magazine_of_n (s : Tank.t) (n extra : nat)
    (Hammo : Tank.ammo s = Z.of_nat (S n))
    (Hidle : Tank.isReloading s = false) :
  Tank.fires (S n) s
  = (repeat true (S n), Tank.startReload (Tank.set_ammo 0 s)) /\
  Tank.fires extra (Tank.startReload (Tank.set_ammo 0 s))
  = (repeat false extra, Tank.startReload (Tank.set_ammo 0 s)).
Proof.
  split; [now apply fires_magazine |].
  induction extra as [| k IH]; [reflexivity |].
  cbn [Tank.fires]. rewrite fire_refused by (right; reflexivity).
  rewrite IH. reflexivity.
Qed.

Lemma tank_magazine_of_n_witness :
  Tank.fires 5 Tank.new
  = (repeat true 5, Tank.startReload (Tank.set_ammo 0 Tank.new)) /\
  Tank.fires 3 (Tank.startReload (Tank.set_ammo 0 Tank.new))
  = (repeat false 3, Tank.startReload (Tank.set_ammo 0 Tank.new)).
Proof.
  apply (tank_magazine_of_n Tank.new 4 3); reflexivity.
Defined.

(** [X12] [reset()] undoes whatever was done to the weapon and the health:
    after any sequence of calls, [reset] gives the state that [reset]
    gives at once; for a new tank, that is the new tank. *)
Theorem tank_reset_restores_initial (s : Tank.t) (ops : list Tank.op) :
  Tank.reset (Tank.run ops s) = Tank.reset s /\
  Tank.reset (Tank.run ops Tank.new) = Tank.new.
Proof.
  assert (H : forall s0, Tank.reset (Tank.run ops s0) = Tank.reset s0).
  { intros s0. destruct (run_frame ops s0) as (A & B & C & D).
    unfold Tank.reset, Tank.set_reload, Tank.set_ammo, Tank.set_health.
    cbn. now rewrite A, B, C, D. }
  split; [apply H | rewrite H; reflexivity].
Qed.

(** ** Player: score *)

(** [X15] Whatever the sequence of [addKill] and [addDeath] calls on a new
    player, the score is 100 times the number of kills, the kills are the
    [addKill] calls made and the deaths the [addDeath] calls made. *)
Theorem player_score_follows_kills (ops : list Player.op) :
  let p := Player.run ops Player.new in
  Player.score p = (100 * Player.kills p)%Z /\
  Player.kills p = Z.of_nat (length (List.filter Player.isKill ops)) /\
  Player.deaths p
  = Z.of_nat (length (List.filter (fun o => negb (Player.isKill o)) ops)).
Proof.
  assert (H : forall p0,
    let p := Player.run ops p0 in
    (Player.score p - 100 * Player.kills p
     = Player.score p0 - 100 * Player.kills p0)%Z /\
    (Player.kills p
     = Player.kills p0 + Z.of_nat (length (List.filter Player.isKill ops)))%Z /\
    (Player.deaths p
     = Player.deaths p0
       + Z.of_nat
           (length (List.filter (fun o => negb (Player.isKill o)) ops)))%Z).
  { induction ops as [| o ops IH]; intros p0; cbn [Player.run fold_left].
    - cbn. lia.
    - fold (Player.run ops (Player.step o p0)).
      destruct (IH (Player.step o p0)) as (A & B & C). cbv zeta.
      rewrite A, B, C. destruct o; cbn; lia. }
  intros p. destruct (H Player.new) as (A & B & C).
  fold p in A, B, C. cbn in A, B, C. lia.
Qed.

(** ** Projectile: expiry over time *)

Section ProjectileTime.

Import Projectile.

Lemma updates_age (ds : list Q) :
  forall p : Projectile.t,
    age (updates ds p) = fold_left Qplus ds (age p) /\
    lifeTime (updates ds p) = lifeTime p.
Proof.
  induction ds as [| d ds IH]; intros p; [split; reflexivity |].
  cbn [updates fold_left].
  destruct (IH (update d p)) as [A L]. split; assumption.
Qed.

Lemma updates_app (ds1 ds2 : list Q) (p : Projectile.t) :
  updates (ds1 ++ ds2) p = updates ds2 (updates ds1 p).
Proof. unfold updates. apply fold_left_app. Qed.

Lemma updates_age_grows (ds : list Q) :
  forall p : Projectile.t,
    Forall (fun d => 0 <= d) ds -> age p <= age (updates ds p).
Proof.
  induction ds as [| d ds IH]; intros p H; [cbn; lra |].
  apply Forall_cons in H. destruct H as [Hd Hds].
  cbn [updates fold_left]. fold (updates ds (update d p)).
  specialize (IH (update d p) Hds). cbn [update age] in IH. lra.
Qed.

End ProjectileTime.

(** [X16] Expiry is final as long as time does not run backwards: a
    projectile that is expired after some updates is still expired after
    any further updates whose deltas are not negative. *)
Theorem projectile_expiry_is_final (p : Projectile.t)
    (before after : list Q)
    (Hafter : Forall (fun d => 0 <= d) after)
    (Hexpired : Projectile.isExpired (Projectile.updates before p) = true) :
  Projectile.isExpired (Projectile.updates (before ++ after) p) = true.
Proof.
  rewrite updates_app.
  set (q := Projectile.updates before p) in *.
  unfold Projectile.isExpired in *.
  apply Js_ge_true in Hexpired. apply Js_ge_true.
  destruct (updates_age after q) as [_ HL]. rewrite HL.
  pose proof (updates_age_grows after q Hafter). lra.
Qed.

Lemma projectile_expiry_is_final_witness :
  Projectile.isExpired
    (Projectile.updates ([3; 2] ++ [1 # 60; 0; 1 # 30])
       (Projectile.new "p" Cannon.zero (mkVec3 0 0 1) 50 20 "o")) = true.
Proof.
  apply (projectile_expiry_is_final
           (Projectile.new "p" Cannon.zero (mkVec3 0 0 1) 50 20 "o")
           [3; 2] [1 # 60; 0; 1 # 30]).
  - repeat constructor; vm_compute; discriminate.
  - reflexivity.
Defined.

(** ** CollisionManager: contacts of the bodies the entities build *)

Section Wiring.

Import Cannon CollisionManager.

Ltac split_tags :=
  repeat match goal with
         | |- context [String.eqb ?s ?c] =>
             is_var s; destruct (String.eqb_spec s c); [subst s |]
         end.

(** For any two bodies, whatever they carry: the listener emits at most
    one event and the same events for (A, B) as for (B, A). *)
Lemma beginContact_any (a b : Body) :
  beginContact (Some a) (Some b) = beginContact (Some b) (Some a) /\
  (length (beginContact (Some a) (Some b)) <= 1)%nat.
Proof.
  unfold beginContact, pairIs, pick, hasType.
  destruct (typeOf a) as [sa |]; destruct (typeOf b) as [sb |];
    split_tags; cbn; split; (reflexivity || lia).
Qed.

End Wiring.

(** [X17] For every pair of contacting bodies, whatever role tags and payload
    they carry or lack: the listener emits at most one event, and the same
    for the contact reported as (A, B) and as (B, A). *)
Theorem classifier_symmetric_single_event (a b : option Cannon.Body) :
  CollisionManager.beginContact a b = CollisionManager.beginContact b a /\
  (length (CollisionManager.beginContact a b) <= 1)%nat.
Proof.
  destruct a as [a |], b as [b |]; try (split; [reflexivity | cbn; lia]).
  apply beginContact_any.
Qed.


(** [X19] The contacts of the bodies the entities build, beyond shell and
    tank: a shell or a tank on the terrain gives the ground event with the
    id and position of the shell or tank; two tanks, two shells, and
    anything that touches a world object give no event. *)
Theorem built_bodies_contact_table (p q : Projectile.t)
    (id1 id2 : string) (pos1 rot1 pos2 rot2 : Vec3)
    (terrain : Terrain.t) (rnd : Q * Q * Q) (w : WorldObject.t) :
  let shell := Projectile.createPhysicsBody p in
  let shell' := Projectile.createPhysicsBody q in
  let tank1 := Tank.createPhysicsBody id1 pos1 rot1 in
  let tank2 := Tank.createPhysicsBody id2 pos2 rot2 in
  let ground := Terrain.createPhysicsBody terrain in
  let prop := WorldObject.createPhysicsBody rnd w in
  CollisionManager.beginContact (Some shell) (Some ground)
  = [CollisionManager.projectileHitGround (Some (Projectile.id p))
       (Projectile.position p)] /\
  CollisionManager.beginContact (Some tank1) (Some ground)
  = [CollisionManager.tankHitGround (Some id1) pos1] /\
  CollisionManager.beginContact (Some tank1) (Some tank2) = [] /\
  CollisionManager.beginContact (Some shell) (Some shell') = [] /\
  CollisionManager.beginContact (Some ground) (Some ground) = [] /\
  CollisionManager.beginContact (Some shell) (Some prop) = [] /\
  CollisionManager.beginContact (Some tank1) (Some prop) = [] /\
  CollisionManager.beginContact (Some ground) (Some prop) = [].
Proof.
  intros shell shell' tank1 tank2 ground prop.
  repeat split; try reflexivity;
    apply beginContact_no_role_r, worldObject_roleOf.
Qed.

(** ** Terrain: where a height query reads *)

Section TerrainCells.

Import Terrain.

Lemma clampIndex_range (resolution : nat) (i : Z) :
  (0 <= clampIndex resolution i <= Z.of_nat resolution)%Z.
Proof. unfold clampIndex. lia. Qed.

Lemma num_pos (n : nat) : (0 < n)%nat -> 0 < num n.
Proof.
  intros H. unfold num. change 0 with (inject_Z 0).
  rewrite <- Zlt_Qlt. lia.
Qed.

Lemma num_nonneg (n : nat) : 0 <= num n.
Proof.
  unfold num. change 0 with (inject_Z 0). rewrite <- Zle_Qle. lia.
Qed.

(** The position of a coordinate on the side of the terrain, as a
    fraction: below 0 left of the terrain, 1 or more right of it. *)
Lemma fraction_bounds (s : Terrain.t) (x : Q) :
  0 < size s ->
  let u := (x + size s / 2) / size s in
  (x <= - (size s / 2) -> u <= 0) /\
  (- (size s / 2) <= x -> 0 <= u) /\
  (size s / 2 <= x -> 1 <= u) /\
  (x < size s / 2 -> u < 1).
Proof.
  intros Hs u. unfold u.
  assert (Hhalf : size s / 2 == (1 # 2) * size s) by (field).
  repeat split; intros H.
  - apply Qle_shift_div_r; [exact Hs | lra].
  - apply Qle_shift_div_l; [exact Hs | lra].
  - apply Qle_shift_div_l; [exact Hs | lra].
  - apply Qlt_shift_div_r; [exact Hs | lra].
Qed.

Lemma gridIndex_left (s : Terrain.t) (x : Q) :
  0 < size s -> x <= - (size s / 2) -> (gridIndex s x <= 0)%Z.
Proof.
  intros Hs Hx. unfold gridIndex.
  destruct (fraction_bounds s x Hs) as (Hu & _).
  specialize (Hu Hx).
  set (u := (x + size s / 2) / size s) in *.
  assert (Hv : u * num (resolution s) <= 0).
  { pose proof (Qmult_le_compat_r u 0 (num (resolution s)) Hu
                  (num_nonneg _)) as H. lra. }
  apply Qfloor_resp_le in Hv. exact Hv.
Qed.

Lemma gridIndex_right (s : Terrain.t) (x : Q) :
  0 < size s -> size s / 2 <= x ->
  (Z.of_nat (resolution s) <= gridIndex s x)%Z.
Proof.
  intros Hs Hx. unfold gridIndex.
  destruct (fraction_bounds s x Hs) as (_ & _ & Hu & _).
  specialize (Hu Hx).
  set (u := (x + size s / 2) / size s) in *.
  assert (Hv : num (resolution s) <= u * num (resolution s)).
  { pose proof (Qmult_le_compat_r 1 u (num (resolution s)) Hu
                  (num_nonneg _)) as H. lra. }
  apply Qfloor_resp_le in Hv. unfold num in Hv at 1.
  now rewrite Qfloor_Z in Hv.
Qed.

Lemma getHeightAt_generated_floor (noise2D : Q -> Q -> Q) (s : Terrain.t)
    (x z : Q) :
  exists h,
    fst (getHeightAt x z (generateHeightData noise2D s)) = Some h /\
    (3 # 10) * maxHeight s <= h.
Proof.
  unfold getHeightAt. cbn [fst].
  set (g := generateHeightData noise2D s).
  pose proof (clampIndex_range (resolution g) (gridIndex g x)) as Hi.
  pose proof (clampIndex_range (resolution g) (gridIndex g z)) as Hj.
  unfold g at 1. rewrite at_generated by (cbn in *; lia).
  eexists. split; [reflexivity |].
  pose proof (sampleHeight_floor noise2D (resolution s) (maxHeight s)
                (Z.to_nat (clampIndex (resolution g) (gridIndex g x)))
                (Z.to_nat (clampIndex (resolution g) (gridIndex g z)))) as H.
  lra.
Qed.

End TerrainCells.

(** [X22] A height query at or left of the low edge of the terrain
    ([x <= -size/2]) reads row 0 of the grid, and one at or right of its
    high edge ([x >= size/2]) reads row [resolution]: points outside get
    the height of the border. *)
Theorem terrain_query_outside_reads_border (s : Terrain.t) (x : Q)
    (Hsize : 0 < Terrain.size s) :
  (x <= - (Terrain.size s / 2) ->
   Terrain.clampIndex (Terrain.resolution s) (Terrain.gridIndex s x) = 0%Z) /\
  (Terrain.size s / 2 <= x ->
   Terrain.clampIndex (Terrain.resolution s) (Terrain.gridIndex s x)
   = Z.of_nat (Terrain.resolution s)).
Proof.
  split.
  - intros H. pose proof (gridIndex_left s x Hsize H).
    unfold Terrain.clampIndex. lia.
  - intros H. pose proof (gridIndex_right s x Hsize H).
    unfold Terrain.clampIndex. lia.
Qed.

Lemma terrain_query_outside_reads_border_witness :
  Terrain.clampIndex 128 (Terrain.gridIndex Terrain.scenario (-700)) = 0%Z /\
  Terrain.clampIndex 128 (Terrain.gridIndex Terrain.scenario 500) = 128%Z.
Proof.
  assert (H : 0 < Terrain.size Terrain.scenario) by reflexivity.
  split.
  - apply (proj1 (terrain_query_outside_reads_border Terrain.scenario
                    (-700) H)).
    vm_compute. discriminate.
  - apply (proj2 (terrain_query_outside_reads_border Terrain.scenario
                    500 H)).
    vm_compute. discriminate.
Defined.

(** ** WorldManager: spawn points *)

Section Spawning.

Import WorldManager.

Lemma heightPlus_generated (noise2D : Q -> Q -> Q) (x z offset : Q)
    (sp : list Point) (otherwise : option Q) :
  exists h,
    heightPlus
      {| terrain := terrain (generateTerrain noise2D); spawnPoints := sp |}
      x z offset otherwise = Some (h + offset) /\
    15 <= h.
Proof.
  unfold heightPlus, generateTerrain. cbn [terrain].
  destruct (getHeightAt_generated_floor noise2D (Terrain.new 1000 128 50) x z)
    as (h & Hh & Hfloor).
  rewrite Hh. exists h. split; [reflexivity |].
  cbn [Terrain.maxHeight Terrain.new] in Hfloor. lra.
Qed.

Lemma floor_index_in_range (r : Q) (n : nat) :
  0 <= r -> r < 1 -> (0 < n)%nat ->
  (0 <= Qfloor (r * Terrain.num n) < Z.of_nat n)%Z.
Proof.
  intros H0 H1 Hn.
  pose proof (num_pos n Hn) as HN.
  assert (Hv0 : 0 <= r * Terrain.num n)
    by (apply Qmult_le_0_compat; lra).
  assert (Hv1 : r * Terrain.num n < Terrain.num n).
  { pose proof (Qmult_lt_compat_r r 1 (Terrain.num n) HN H1). lra. }
  split.
  - apply Qfloor_resp_le in Hv0. exact Hv0.
  - rewrite Zlt_Qlt.
    eapply Qle_lt_trans; [apply Qfloor_le |]. exact Hv1.
Qed.

End Spawning.

(** [X24] The spawn points [generateSpawnPoints] makes on the generated
    terrain, for values of [Math.random()] in [0, 1): there are ten of
    them, each at least 100 units inside the terrain on both axes
    ([-400 <= x, z < 400]), and each at a height a terrain query gave plus
    2, hence 17 or more. *)
Theorem spawn_points_inside_and_above_ground (noise2D : Q -> Q -> Q)
    (random : nat -> Q)
    (Hrandom : forall k, 0 <= random k /\ random k < 1) :
  let w :=
    WorldManager.generateSpawnPoints random
      (WorldManager.generateTerrain noise2D) in
  length (WorldManager.spawnPoints w) = 10%nat /\
  Forall (fun p =>
            -400 <= WorldManager.px p /\ WorldManager.px p < 400 /\
            -400 <= WorldManager.pz p /\ WorldManager.pz p < 400 /\
            exists y, WorldManager.py p = Some y /\ 17 <= y)
         (WorldManager.spawnPoints w).
Proof.
  intros w. split; [reflexivity |].
  unfold w, WorldManager.generateSpawnPoints.
  cbn [WorldManager.spawnPoints WorldManager.generateTerrain app].
  apply List.Forall_forall. intros p Hp.
  apply in_map_iff in Hp. destruct Hp as (i & <- & _).
  cbn [WorldManager.px WorldManager.pz WorldManager.py].
  destruct (Hrandom (2 * i)%nat) as [Hx0 Hx1].
  destruct (Hrandom (2 * i + 1)%nat) as [Hz0 Hz1].
  assert (E : 1000 / 2 == 500) by reflexivity.
  repeat split; try (rewrite E; lra).
  match goal with
  | |- context [WorldManager.heightPlus ?w0 ?x ?z 2 ?o] =>
      destruct (heightPlus_generated noise2D x z 2 [] o) as (h & Hh & Hfloor)
  end.
  eexists. split; [exact Hh | lra].
Qed.

Lemma spawn_points_inside_and_above_ground_witness :
  let w :=
    WorldManager.generateSpawnPoints (fun k => 1 # 2)
      (WorldManager.generateTerrain Terrain.plateauNoise) in
  length (WorldManager.spawnPoints w) = 10%nat.
Proof.
  refine (proj1
    (spawn_points_inside_and_above_ground Terrain.plateauNoise
       (fun k => 1 # 2) _)).
  intros k. split; vm_compute; [discriminate | reflexivity].
Defined.

(** [X25] [getRandomSpawnPosition] with spawn points available and a value of
    [Math.random()] in [0, 1): the index [floor(r * length)] is within the
    list, so the call returns one of the spawn points and never reads
    outside the list. *)
Theorem random_spawn_position_is_a_spawn_point (w : WorldManager.t)
    (r r1 r2 : Q)
    (Hpoints : WorldManager.spawnPoints w <> [])
    (Hr0 : 0 <= r) (Hr1 : r < 1) :
  exists p,
    WorldManager.getRandomSpawnPosition r r1 r2 w = Some p /\
    In p (WorldManager.spawnPoints w).
Proof.
  unfold WorldManager.getRandomSpawnPosition.
  destruct (WorldManager.spawnPoints w) as [| p0 l] eqn:E; [congruence |].
  assert (Hn : (0 < length (p0 :: l))%nat) by (cbn; lia).
  pose proof (floor_index_in_range r (length (p0 :: l)) Hr0 Hr1 Hn) as Hi.
  set (index := Qfloor (r * Terrain.num (length (p0 :: l)))) in *.
  destruct (index <? 0)%Z eqn:Eneg; [apply Z.ltb_lt in Eneg; lia |].
  destruct (nth_error (p0 :: l) (Z.to_nat index)) as [p |] eqn:En.
  - exists p. split; [reflexivity |]. eapply nth_error_In; exact En.
  - apply nth_error_None in En. lia.
Qed.

Lemma random_spawn_position_is_a_spawn_point_witness :
  let w :=
    WorldManager.generateSpawnPoints (fun k => 1 # 2)
      (WorldManager.generateTerrain Terrain.plateauNoise) in
  exists p,
    WorldManager.getRandomSpawnPosition (99 # 100) 0 0 w = Some p /\
    In p (WorldManager.spawnPoints w).
Proof.
  apply (random_spawn_position_is_a_spawn_point
           (WorldManager.generateSpawnPoints (fun k => 1 # 2)
              (WorldManager.generateTerrain Terrain.plateauNoise))).
  - intros H.
    assert (L : length
                  (WorldManager.spawnPoints
                     (WorldManager.generateSpawnPoints (fun k => 1 # 2)
                        (WorldManager.generateTerrain Terrain.plateauNoise)))
                = 10%nat) by reflexivity.
    rewrite H in L. discriminate L.
  - vm_compute. discriminate.
  - vm_compute. reflexivity.
Defined.

(** ** Binary64: what a NaN does *)

Section NaNs.

Lemma Double_isNaN_spec (a : float) :
  Double.isNaN a = true <-> Prim2SF a = S754_nan.
Proof.
  unfold Double.isNaN. destruct (Prim2SF a); split; congruence.
Qed.

Lemma Double_add_NaN_l (a b : float) :
  Double.isNaN a = true -> Double.isNaN (a + b)%float = true.
Proof.
  rewrite !Double_isNaN_spec, FloatAxioms.add_spec. intros ->. reflexivity.
Qed.

Lemma Double_add_NaN_r (a b : float) :
  Double.isNaN b = true -> Double.isNaN (a + b)%float = true.
Proof.
  rewrite !Double_isNaN_spec, FloatAxioms.add_spec. intros ->.
  unfold SF64add, SFadd. destruct (Prim2SF a); reflexivity.
Qed.

Lemma Double_div_NaN_l (a b : float) :
  Double.isNaN a = true -> Double.isNaN (a / b)%float = true.
Proof.
  rewrite !Double_isNaN_spec, FloatAxioms.div_spec. intros ->. reflexivity.
Qed.

Lemma Double_mul_NaN_l (a b : float) :
  Double.isNaN a = true -> Double.isNaN (a * b)%float = true.
Proof.
  rewrite !Double_isNaN_spec, FloatAxioms.mul_spec. intros ->. reflexivity.
Qed.

(** NaN is not [>=] anything. *)
Lemma Double_ge_NaN (a b : float) :
  Double.isNaN a = true -> Double.ge a b = false.
Proof.
  rewrite Double_isNaN_spec. unfold Double.ge.
  rewrite FloatAxioms.leb_spec. intros ->.
  unfold SFleb, SFcompare. destruct (Prim2SF b); reflexivity.
Qed.

Lemma Double_floor_NaN (a : float) :
  Double.isNaN a = true -> Double.floor a = Double.NaN.
Proof.
  rewrite Double_isNaN_spec. unfold Double.floor. intros ->. reflexivity.
Qed.

End NaNs.

Section TankCycle64.

Import Tank64.

Lemma Tank64_fires_magazine (k : nat) :
  forall s : Tank64.t,
    ammo s = Z.of_nat (S k) -> isReloading s = false ->
    fires (S k) s =
      (repeat true (S k),
       startReload
         {| ammo := 0; maxAmmo := maxAmmo s; reloadTime := reloadTime s;
            isReloading := false; reloadTimer := reloadTimer s |}).
Proof.
  induction k as [| k IH]; intros s Ha Hr.
  - cbn [fires]. unfold fire. rewrite Hr, Ha. reflexivity.
  - remember (S k) as k1. cbn [fires]. unfold fire at 1. rewrite Hr.
    destruct (ammo s <=? 0)%Z eqn:E; [apply Z.leb_le in E; lia |].
    cbn [orb ammo].
    destruct (ammo s - 1 <=? 0)%Z eqn:E'; [apply Z.leb_le in E'; lia |].
    rewrite IH by (cbn; lia). cbn [repeat]. reflexivity.
Qed.

(** An update that takes the timer to NaN leaves the tank reloading. *)
Lemma Tank64_update_nan (d : float) (s : Tank64.t) :
  isReloading s = true -> Double.isNaN (reloadTimer s + d)%float = true ->
  update d s =
    {| ammo := ammo s; maxAmmo := maxAmmo s; reloadTime := reloadTime s;
       isReloading := true; reloadTimer := (reloadTimer s + d)%float |}.
Proof.
  intros Hr Hnan. unfold update. rewrite Hr.
  now rewrite (Double_ge_NaN _ (reloadTime s) Hnan).
Qed.

Lemma Tank64_updates_nan (ds : list float) :
  forall s : Tank64.t,
    isReloading s = true -> Double.isNaN (reloadTimer s) = true ->
    isReloading (updates ds s) = true /\
    ammo (updates ds s) = ammo s /\
    Double.isNaN (reloadTimer (updates ds s)) = true.
Proof.
  induction ds as [| d ds IH]; intros s Hr Hnan; [auto |].
  change (updates (d :: ds) s) with (updates ds (update d s)).
  rewrite (Tank64_update_nan d s Hr (Double_add_NaN_l _ d Hnan)).
  match goal with
  | |- context [updates ds ?s1] => destruct (IH s1) as (A & B & C)
  end; [reflexivity | cbn [reloadTimer]; now apply Double_add_NaN_l |].
  cbn [ammo] in B. split; [exact A |]. split; [exact B | exact C].
Qed.

End TankCycle64.

(** [X26] A full cycle is a round trip: a tank with a full magazine of
    [k + 1] rounds, idle, its timer at 0, that fires them all and is then
    updated until its timer has reached [reloadTime] (update [n] is the
    first after which the timer, as the code accumulates it, is greater
    than or equal to [reloadTime]), is back in the state it started
    from, however many updates follow. *)
Theorem tank_fire_reload_round_trip (s : Tank64.t) (k n : nat)
    (deltas : list float)
    (Hfull : Tank64.ammo s = Tank64.maxAmmo s)
    (Hammo : Tank64.ammo s = Z.of_nat (S k))
    (Hidle : Tank64.isReloading s = false)
    (Htimer : Tank64.reloadTimer s = 0%float)
    (Hn : (1 <= n <= length deltas)%nat)
    (Hbefore : forall j, (1 <= j < n)%nat ->
       Double.ge (Tank64.timerAfter (firstn j deltas))
                 (Tank64.reloadTime s) = false)
    (Hreach :
       Double.ge (Tank64.timerAfter (firstn n deltas))
                 (Tank64.reloadTime s) = true) :
  fst (Tank64.fires (S k) s) = repeat true (S k) /\
  Tank64.updates deltas (snd (Tank64.fires (S k) s)) = s.
Proof.
  rewrite (Tank64_fires_magazine k s Hammo Hidle). cbn [fst snd].
  split; [reflexivity |].
  set (s0 := {| Tank64.ammo := 0%Z; Tank64.maxAmmo := Tank64.maxAmmo s;
                Tank64.reloadTime := Tank64.reloadTime s;
                Tank64.isReloading := false;
                Tank64.reloadTimer := Tank64.reloadTimer s |}).
  destruct (Tank64_reload_course s0 deltas n Hn Hbefore Hreach) as [_ C].
  rewrite <- (firstn_all deltas). rewrite (C (length deltas)) by lia.
  cbn [s0 Tank64.maxAmmo Tank64.reloadTime].
  destruct s as [a ma rt r tm]. cbn in *. congruence.
Qed.

Lemma tank_fire_reload_round_trip_witness :
  fst (Tank64.fires 5 Tank64.new) = repeat true 5 /\
  Tank64.updates (repeat 0x1.999999999999ap-3%float 12)
    (snd (Tank64.fires 5 Tank64.new)) = Tank64.new.
Proof.
  apply (tank_fire_reload_round_trip Tank64.new 4 11
           (repeat 0x1.999999999999ap-3%float 12)); try reflexivity.
  - cbn. lia.
  - intros j Hj.
    do 11 (destruct j as [| j]; [try lia; reflexivity |]). lia.
Defined.

(** [X27] A frame delta that is NaN blocks the reload: once a reloading
    tank has been updated with it, the timer is NaN and no later update,
    whatever its delta, ends the reload or restores the ammunition. *)
Theorem reload_stuck_after_nan_delta (s : Tank64.t) (d : float)
    (deltas : list float)
    (Hrel : Tank64.isReloading s = true)
    (Hnan : Double.isNaN d = true) :
  let s' := Tank64.updates (d :: deltas) s in
  Tank64.isReloading s' = true /\
  Tank64.ammo s' = Tank64.ammo s /\
  Double.isNaN (Tank64.reloadTimer s') = true.
Proof.
  intros s'. unfold s'.
  change (Tank64.updates (d :: deltas) s)
    with (Tank64.updates deltas (Tank64.update d s)).
  rewrite (Tank64_update_nan d s Hrel
             (Double_add_NaN_r (Tank64.reloadTimer s) d Hnan)).
  match goal with
  | |- context [Tank64.updates deltas ?s1] =>
      destruct (Tank64_updates_nan deltas s1) as (A & B & C)
  end;
    [reflexivity | cbn [Tank64.reloadTimer]; now apply Double_add_NaN_r |].
  cbn [Tank64.ammo] in B. split; [exact A |]. split; [exact B | exact C].
Qed.

Lemma reload_stuck_after_nan_delta_witness :
  let s' :=
    Tank64.updates [nan; 1; 1; 1]%float (snd (Tank64.fires 5 Tank64.new)) in
  Tank64.isReloading s' = true /\
  Tank64.ammo s' = 0%Z /\
  Double.isNaN (Tank64.reloadTimer s') = true.
Proof.
  apply (reload_stuck_after_nan_delta (snd (Tank64.fires 5 Tank64.new))
           nan [1; 1; 1]%float); reflexivity.
Defined.

Section ProjectileNaN.

Import Projectile64.

Lemma Projectile64_updates_nan (ds : list float) :
  forall p : Projectile64.t,
    Double.isNaN (age p) = true ->
    Double.isNaN (age (updates ds p)) = true.
Proof.
  induction ds as [| d ds IH]; intros p Hnan; [exact Hnan |].
  cbn [updates fold_left]. apply (IH (update d p)).
  cbn [update age]. now apply Double_add_NaN_l.
Qed.

End ProjectileNaN.

(** [X28] A frame delta that is NaN keeps a projectile alive: once it has
    been updated with it, its age is NaN and [isExpired()] is false after
    every further update. *)
Theorem projectile_never_expires_after_nan_delta (p : Projectile64.t)
    (d : float) (deltas : list float)
    (Hnan : Double.isNaN d = true) :
  let p' := Projectile64.updates (d :: deltas) p in
  Double.isNaN (Projectile64.age p') = true /\
  Projectile64.isExpired p' = false.
Proof.
  intros p'.
  assert (H : Double.isNaN (Projectile64.age p') = true).
  { unfold p'. cbn [Projectile64.updates fold_left].
    apply (Projectile64_updates_nan deltas (Projectile64.update d p)).
    cbn [Projectile64.update Projectile64.age]. now apply Double_add_NaN_r. }
  split; [exact H |].
  unfold Projectile64.isExpired. now apply Double_ge_NaN.
Qed.

Lemma projectile_never_expires_after_nan_delta_witness :
  let p' := Projectile64.updates [nan; 3; 3]%float Projectile64.new in
  Double.isNaN (Projectile64.age p') = true /\
  Projectile64.isExpired p' = false.
Proof.
  apply (projectile_never_expires_after_nan_delta Projectile64.new nan
           [3; 3]%float).
  reflexivity.
Defined.

(** [X29] A height query with a NaN coordinate: when [x] is NaN the call
    throws, whatever the terrain; when only [z] is NaN, on a terrain with
    its full grid, the call returns [undefined]. *)
Theorem terrain_query_nan_coordinate (s : Terrain64.t) (x z : float) :
  (Double.isNaN x = true ->
   fst (Terrain64.getHeightAt x z s) = Terrain64.Throws) /\
  (Terrain64.wellFormed s ->
   Double.floor (Terrain64.indexExpr s x) <> Double.NaN ->
   Double.isNaN z = true ->
   fst (Terrain64.getHeightAt x z s) = Terrain64.Returns None).
Proof.
  assert (Hidx : forall c, Double.isNaN c = true ->
            Double.floor (Terrain64.indexExpr s c) = Double.NaN).
  { intros c Hc. apply Double_floor_NaN. unfold Terrain64.indexExpr.
    apply Double_mul_NaN_l, Double_div_NaN_l, Double_add_NaN_l, Hc. }
  split.
  - intros Hx. unfold Terrain64.getHeightAt. cbv zeta.
    rewrite (Hidx x Hx). reflexivity.
  - intros [Hrows Hcols] Hx Hz. unfold Terrain64.getHeightAt. cbv zeta.
    rewrite (Hidx z Hz).
    destruct (Terrain64_clamp_spec (Terrain64.resolution s) _ Hx) as [Ei Ri].
    rewrite Ei. unfold Terrain64.num in Ri.
    destruct (Terrain64_element_inside (Terrain64.heightData s)
                (Terrain64.clamped (Terrain64.resolution s)
                   (Double.floor (Terrain64.indexExpr s x))))
      as [row Hrow]; [rewrite Hrows; lia |].
    rewrite Hrow. reflexivity.
Qed.

(** [X30] A NaN health is there to stay: after [setHealth(NaN)] the health
    is NaN and [isDead()] is false, and they stay so under every
    sequence of [damage] and [heal] calls, whatever the amounts: the tank
    cannot be destroyed. *)
Theorem nan_health_cannot_die (s : TankHealth.t) (ops : list TankHealth.op)
    (Hops : forallb TankHealth.isAmountOp ops = true) :
  let s' := TankHealth.run ops (TankHealth.setHealth Number.NaN s) in
  TankHealth.health s' = Number.NaN /\
  TankHealth.isDead s' = false.
Proof.
  intros s'.
  assert (H : forall s0, TankHealth.health s0 = Number.NaN ->
            TankHealth.health (TankHealth.run ops s0) = Number.NaN).
  { clear s'. induction ops as [| o ops IH]; intros s0 H0; [exact H0 |].
    cbn [forallb] in Hops. apply andb_true_iff in Hops.
    destruct Hops as [Ho Hops].
    change (TankHealth.run (o :: ops) s0)
      with (TankHealth.run ops (TankHealth.step o s0)).
    apply (IH Hops).
    destruct o as [a | a | h]; cbn in Ho; try discriminate;
      cbn [TankHealth.step TankHealth.damage TankHealth.heal
           TankHealth.health];
      rewrite H0; unfold Number.sub; cbn.
    - reflexivity.
    - destruct (TankHealth.maxHealth s0); reflexivity. }
  assert (E : TankHealth.health s' = Number.NaN).
  { apply H. cbn [TankHealth.setHealth TankHealth.health].
    destruct (TankHealth.maxHealth s); reflexivity. }
  split; [exact E |]. unfold TankHealth.isDead. now rewrite E.
Qed.

Lemma nan_health_cannot_die_witness :
  let s' :=
    TankHealth.run
      [TankHealth.Damage (Number.Finite 1000); TankHealth.Heal (Number.Finite 5);
       TankHealth.Damage Number.Infinity]
      (TankHealth.setHealth Number.NaN TankHealth.new) in
  TankHealth.health s' = Number.NaN /\
  TankHealth.isDead s' = false.
Proof.
  apply (nan_health_cannot_die TankHealth.new
           [TankHealth.Damage (Number.Finite 1000);
            TankHealth.Heal (Number.Finite 5);
            TankHealth.Damage Number.Infinity]).
  reflexivity.
Defined.
